(** * Student Information System ([stu_info.cpp]): model and properties

    A shallow embedding of the two classes of [stu_info.cpp]:
    - [Student], a five-field record that writes itself as one
      comma-separated line and reads itself back from such a line;
    - [StudentSystem], a [vector<Student>] backed by the file
      [students.txt], saved wholesale after every mutation.

    Conventions of the embedding:
    - a [std::string] is a list of characters ([text]);
    - an [int] is a [Z] in the range [INT_MIN .. INT_MAX] (32 bits);
    - the methods of [StudentSystem] run in a state-and-exception monad
      over a [World] holding the vector, the file [students.txt] (its
      content, and whether it can be opened for writing) and what was sent
      to [cout];
    - the values the methods extract from [cin] are their arguments; a
      second layer models [cin] itself, the methods as they read it, [menu]
      and [main], and is related to the first;
    - an exception ([std::invalid_argument], [std::out_of_range]) aborts
      the computation and keeps the world as it was at the throw. *)

From Stdlib Require Import ZArith String Ascii List Lia.
From stdpp Require Import base list.
Import ListNotations.

Local Open Scope Z_scope.

(** ** Text *)

Abbreviation text := (list ascii).

(** A string literal of the source. *)
Definition txt (s : string) : text := list_ascii_of_string s.

Definition COMMA : ascii := ","%char.
(** The newline written by [endl] and eaten by [getline]. *)
Definition LF : ascii := ascii_of_nat 10.

(** ** Exceptions *)

Inductive exception : Set :=
| invalid_argument
| out_of_range.

Inductive Result (A : Type) : Type :=
| Ok (a : A)
| Throw (e : exception).
Arguments Ok {A} a.
Arguments Throw {A} e.

(** ** [int] and its decimal text *)

Definition INT_MIN : Z := - 2 ^ 31.
Definition INT_MAX : Z := 2 ^ 31 - 1.

Definition int_range (z : Z) : Prop := INT_MIN <= z <= INT_MAX.

Definition in_int_range (z : Z) : bool := (INT_MIN <=? z) && (z <=? INT_MAX).

Definition isdigit (c : ascii) : bool :=
  let n := nat_of_ascii c in ((48 <=? n) && (n <=? 57))%nat.

(** [isspace] in the "C" locale: space, and \t \n \v \f \r. *)
Definition isspace (c : ascii) : bool :=
  let n := nat_of_ascii c in ((n =? 32) || ((9 <=? n) && (n <=? 13)))%nat.

Definition digit_char (d : Z) : ascii := ascii_of_nat (48 + Z.to_nat d).
Definition digit_val (c : ascii) : Z := Z.of_nat (nat_of_ascii c) - 48.

(** The digits of a non-negative number, most significant first. *)
Fixpoint dec_digits (fuel : nat) (n : Z) : text :=
  match fuel with
  | O => []
  | S fuel' =>
      if n <? 10 then [digit_char n]
      else dec_digits fuel' (n / 10) ++ [digit_char (n mod 10)]
  end.

(** [out << n] for an [int]: a minus sign when negative, then the digits.
    [S (log2 n)] bounds the number of decimal digits of [n]. *)
Definition to_dec (n : Z) : text :=
  if n <? 0 then "-"%char :: dec_digits (S (Z.to_nat (Z.log2 (- n)))) (- n)
  else dec_digits (S (Z.to_nat (Z.log2 n))) n.

Fixpoint skip_space (s : text) : text :=
  match s with
  | c :: s' => if isspace c then skip_space s' else s
  | [] => []
  end.

(** The value of the longest prefix of digits, accumulated left to right. *)
Fixpoint read_digits (acc : Z) (s : text) : Z :=
  match s with
  | c :: s' => if isdigit c then read_digits (acc * 10 + digit_val c) s' else acc
  | [] => acc
  end.

(** [std::stoi(str)] (base 10, no position out-parameter): skips leading
    white space, takes an optional sign and the longest run of digits, and
    ignores what follows. Throws [invalid_argument] when there is no digit
    and [out_of_range] when the value does not fit an [int]. *)
Definition stoi (str : text) : Result Z :=
  let s := skip_space str in
  let '(neg, s) :=
    match s with
    | c :: s' =>
        if Ascii.eqb c "-" then (true, s')
        else if Ascii.eqb c "+" then (false, s')
        else (false, s)
    | [] => (false, s)
    end in
  match s with
  | c :: _ =>
      if isdigit c then
        let v := read_digits 0 s in
        let v := if neg then - v else v in
        if in_int_range v then Ok v else Throw out_of_range
      else Throw invalid_argument
  | [] => Throw invalid_argument
  end.

(** ** class [Student] *)

Record Student : Type := mkStudent {
  rollNo : Z;
  name : text;
  department : text;
  email : text;
  phone : text
}.

(** [Student() {}]: the four strings are default-constructed, hence empty;
    [rollNo] has no initialiser and the body is empty, so it keeps whatever
    value its storage held. That indeterminate value is the argument. *)
Definition Student_default (indeterminate : Z) : Student :=
  mkStudent indeterminate [] [] [] [].

Definition getRollNo (s : Student) : Z := rollNo s.

Definition setName (n : text) (s : Student) : Student :=
  mkStudent (rollNo s) n (department s) (email s) (phone s).

(** The line [Student::saveToFile] writes, without the final [endl]. *)
Definition line_of (s : Student) : text :=
  to_dec (rollNo s) ++ COMMA :: name s ++ COMMA :: department s
    ++ COMMA :: email s ++ COMMA :: phone s.

(** [Student::saveToFile(out)]: what is appended to the stream. *)
Definition Student_saveToFile (s : Student) : text := line_of s ++ [LF].

(** [line.find(",")]: position of the first comma, [None] for [npos]. *)
Fixpoint find (c : ascii) (line : text) : option nat :=
  match line with
  | [] => None
  | x :: line' =>
      if Ascii.eqb x c then Some O
      else match find c line' with
           | Some pos => Some (S pos)
           | None => None
           end
  end.

(** The [while] loop of [fromString]: [substr(0, pos)] is [take pos],
    [erase(0, pos + 1)] is [drop (S pos)]. [None] when the fuel runs out. *)
Fixpoint split_loop (fuel : nat) (line : text) (parts : list text)
  : option (list text) :=
  match fuel with
  | O => None
  | S fuel' =>
      match find COMMA line with
      | Some pos => split_loop fuel' (drop (S pos) line) (parts ++ [take pos line])
      | None => Some (parts ++ [line])   (* parts.push_back(line) *)
      end
  end.

(** Every turn of the loop erases at least one character, so
    [S (length line)] turns are enough (lemma [split_loop_fuel]). *)
Definition split (line : text) : list text :=
  default [] (split_loop (S (length line)) line []).

(** [Student::fromString(line)]. The argument [indeterminate] is the value
    the uninitialised [rollNo] of [Student()] happens to hold. *)
Definition fromString (indeterminate : Z) (line : text) : Result Student :=
  match split line with
  | [p0; p1; p2; p3; p4] =>
      match stoi p0 with
      | Ok r => Ok (mkStudent r p1 p2 p3 p4)
      | Throw e => Throw e
      end
  | _ => Ok (Student_default indeterminate)
  end.

(** ** The world of a [StudentSystem] *)

(** What the program sends to [cout], one constructor per message. *)
Inductive Output : Type :=
| EnterRollNo            (* "Enter Roll No: " *)
| EnterName              (* "Enter Name: " *)
| EnterDepartment        (* "Enter Department: " *)
| EnterEmail             (* "Enter Email: " *)
| EnterPhone             (* "Enter Phone: " *)
| StudentAdded           (* "Student Added Successfully!" *)
| NoRecordsFound         (* "No records found!" *)
| EnterRollNoToSearch    (* "Enter Roll No to Search: " *)
| StudentNotFound        (* "Student not found!" *)
| EnterRollNoToUpdate    (* "Enter Roll No to Update: " *)
| EnterNewName           (* "Enter New Name: " *)
| StudentUpdated         (* "Student Updated!" *)
| EnterRollNoToDelete    (* "Enter Roll No to Delete: " *)
| StudentDeleted         (* "Student Deleted!" *)
| Display (s : Student). (* s.display() *)

(** The file named by [filename]: its content ([None] while the file does
    not exist) and whether the process can open it for writing (its
    permissions, those of the directory). *)
Record File : Type := mkFile {
  content : option text;
  writable : bool
}.

Definition no_file : File := mkFile None true.
Definition file_with (t : text) : File := mkFile (Some t) true.

(** [students] is the member vector; [students_txt] is the file named by
    [filename]; [cout] is everything printed so far. *)
Record World : Type := mkWorld {
  students : list Student;
  students_txt : File;
  cout : list Output
}.

Definition M (A : Type) : Type := World -> Result A * World.

#[global] Instance M_ret : MRet M := fun A (a : A) w => (Ok a, w).

(** Sequencing: an exception skips the rest. *)
#[global] Instance M_bind : MBind M := fun A B (k : A -> M B) (m : M A) w =>
  match m w with
  | (Ok a, w') => k a w'
  | (Throw e, w') => (Throw e, w')
  end.

(** A call that may throw. *)
Definition lift {A} (r : Result A) : M A := fun w => (r, w).

Definition print (o : Output) : M unit :=
  fun w => (Ok tt, mkWorld (students w) (students_txt w) (cout w ++ [o])).

Definition get_students : M (list Student) := fun w => (Ok (students w), w).

Definition modify_students (f : list Student -> list Student) : M unit :=
  fun w => (Ok tt, mkWorld (f (students w)) (students_txt w) (cout w)).

(** [ofstream out(filename)]: when the file can be opened for writing it
    is created or truncated and the stream is good; otherwise the file is
    left alone and the stream has failed. The result is the state of the
    stream [out], which the source never tests. *)
Definition ofstream_open : M bool :=
  fun w =>
    if writable (students_txt w)
    then (Ok true, mkWorld (students w) (mkFile (Some []) true) (cout w))
    else (Ok false, w).

(** [out << ...]: appends on a good stream, does nothing on a failed one.
    Once the file is open every write goes through. *)
Definition ofstream_put (out : bool) (t : text) : M unit :=
  fun w =>
    if out
    then (Ok tt,
          mkWorld (students w)
            (mkFile (Some (default [] (content (students_txt w)) ++ t))
               (writable (students_txt w)))
            (cout w))
    else (Ok tt, w).

(** [ifstream in(filename)]: the content to read; a file that cannot be
    opened gives a failed stream, which reads as no line at all. *)
Definition ifstream_open : M text :=
  fun w => (Ok (default [] (content (students_txt w))), w).

(** ** class [StudentSystem] *)

(** [getline(in, line)] on the unread rest of a stream: [None] when nothing
    is left (the call fails); otherwise the characters up to the first
    newline, which is consumed, or up to the end of the stream. *)
Fixpoint until_LF (s : text) : text * text :=
  match s with
  | [] => ([], [])
  | c :: s' =>
      if Ascii.eqb c LF then ([], s')
      else let '(l, r) := until_LF s' in (c :: l, r)
  end.

Definition getline (input : text) : option (text * text) :=
  match input with
  | [] => None
  | _ => Some (until_LF input)
  end.

(** The lines [while (getline(in, line))] goes through. *)
Fixpoint getlines_loop (fuel : nat) (input : text) : option (list text) :=
  match fuel with
  | O => None
  | S fuel' =>
      match getline input with
      | Some (line, rest) =>
          match getlines_loop fuel' rest with
          | Some ls => Some (line :: ls)
          | None => None
          end
      | None => Some []
      end
  end.

Definition getlines (input : text) : list text :=
  default [] (getlines_loop (S (length input)) input).

(** [line.empty()], [students.empty()]. *)
Definition is_empty {A} (l : list A) : bool :=
  match l with [] => true | _ => false end.

(** The body of the loop of [loadFromFile], for each line read. The call
    of [fromString] on the [k]-th line read sees the indeterminate value
    [indet k]. *)
Fixpoint load_loop (indet : nat -> Z) (k : nat) (lines : list text) : M unit :=
  match lines with
  | [] => mret tt
  | line :: rest =>
      (if negb (is_empty line) then
         s ← lift (fromString (indet k) line);
         modify_students (fun l => l ++ [s])
       else mret tt);;
      load_loop indet (S k) rest
  end.

Definition loadFromFile (indet : nat -> Z) : M unit :=
  modify_students (fun _ => []);;
  input ← ifstream_open;
  load_loop indet O (getlines input).

Fixpoint save_loop (out : bool) (l : list Student) : M unit :=
  match l with
  | [] => mret tt
  | s :: l' => ofstream_put out (Student_saveToFile s) ;; save_loop out l'
  end.

Definition saveToFile : M unit :=
  out ← ofstream_open;
  l ← get_students;
  save_loop out l.

(** The constructor: [StudentSystem() { loadFromFile(); }]. *)
Definition StudentSystem_new (indet : nat -> Z) : M unit := loadFromFile indet.

(** [addStudent], with the five values read from [cin]. *)
Definition addStudent (roll : Z) (name dept email phone : text) : M unit :=
  print EnterRollNo;;
  print EnterName;;
  print EnterDepartment;;
  print EnterEmail;;
  print EnterPhone;;
  modify_students (fun l => l ++ [mkStudent roll name dept email phone]);;
  saveToFile;;
  print StudentAdded.

Fixpoint display_loop (l : list Student) : M unit :=
  match l with
  | [] => mret tt
  | s :: l' => print (Display s) ;; display_loop l'
  end.

Definition viewStudents : M unit :=
  l ← get_students;
  if is_empty l then print NoRecordsFound
  else display_loop l.

(** The range-for of [searchStudent]; the result is the flag [found]. *)
Fixpoint search_loop (roll : Z) (todo : list Student) : M bool :=
  match todo with
  | [] => mret false
  | s :: rest =>
      if getRollNo s =? roll then
        print (Display s);;
        mret true                           (* found = true; break; *)
      else search_loop roll rest
  end.

(** [searchStudent], with the roll number read from [cin]. *)
Definition searchStudent (roll : Z) : M unit :=
  print EnterRollNoToSearch;;
  l ← get_students;
  found ← search_loop roll l;
  if negb found then print StudentNotFound else mret tt.

(** The range-for of [updateStudent]: [s] is the element at index [i] of
    the vector, and [s.setName(newName)] writes through the reference. *)
Fixpoint update_loop (roll : Z) (newName : text) (i : nat) (todo : list Student)
  : M bool :=
  match todo with
  | [] => mret false
  | s :: rest =>
      if getRollNo s =? roll then
        print EnterNewName;;
        modify_students (fun l => <[i := setName newName s]> l);;
        saveToFile;;
        print StudentUpdated;;
        mret true
      else update_loop roll newName (S i) rest
  end.

(** [updateStudent]; [newName] is the line read once a record is found. *)
Definition updateStudent (roll : Z) (newName : text) : M unit :=
  print EnterRollNoToUpdate;;
  l ← get_students;
  found ← update_loop roll newName O l;
  if negb found then print StudentNotFound else mret tt.

(** The iterator loop of [deleteStudent]: [it] points at index [i], and
    [students.erase(it)] removes that element. *)
Fixpoint delete_loop (roll : Z) (i : nat) (todo : list Student) : M bool :=
  match todo with
  | [] => mret false
  | s :: rest =>
      if getRollNo s =? roll then
        modify_students (fun l => delete i l);;
        saveToFile;;
        print StudentDeleted;;
        mret true
      else delete_loop roll (S i) rest
  end.

Definition deleteStudent (roll : Z) : M unit :=
  print EnterRollNoToDelete;;
  l ← get_students;
  found ← delete_loop roll O l;
  if negb found then print StudentNotFound else mret tt.

(** Running a method: the outcome and the world it leaves. *)
Definition outcome {A} (m : M A) (w : World) : Result A := fst (m w).
Definition exec {A} (m : M A) (w : World) : World := snd (m w).

(** A process that has just started on an absent backing file. *)
Definition fresh_world : World := mkWorld [] no_file [].

Definition Alice : Student := mkStudent 1 (txt "Alice") (txt "CS") (txt "a@x.com") (txt "555").
Definition Bob : Student := mkStudent 2 (txt "Bob") (txt "EE") (txt "b@x.com") (txt "556").

Definition scenario : M unit :=
  StudentSystem_new (fun _ => 0);;
  addStudent 1 (txt "Alice") (txt "CS") (txt "a@x.com") (txt "555");;
  addStudent 2 (txt "Bob") (txt "EE") (txt "b@x.com") (txt "556");;
  updateStudent 1 (txt "Alicia");;
  deleteStudent 2.

(** A second record with Alice's roll number, and a record whose name
    holds a comma. *)
Definition Alan : Student := mkStudent 1 (txt "Alan") (txt "EE") (txt "al@x.com") (txt "557").
Definition Smith : Student :=
  mkStudent 3 (txt "Smith, John") (txt "CS") (txt "s@x.com") (txt "558").

(** ** Notions of the specification *)

(** The serialization of a sequence of records: the line of each record,
    in sequence order. *)
Fixpoint serialize (l : list Student) : text :=
  match l with
  | [] => []
  | s :: l' => Student_saveToFile s ++ serialize l'
  end.

(** [findByRoll] of the specification: the first record of the sequence
    whose roll number is [roll], with its position; [None] for not-found. *)
Definition findByRoll (roll : Z) (l : list Student) : option (nat * Student) :=
  list_find (fun s => getRollNo s = roll) l.

(** What the user sees of a search in world [w]. *)
Definition search_shows (roll : Z) (w : World) (s : Student) : Prop :=
  cout (exec (searchStudent roll) w) = cout w ++ [EnterRollNoToSearch; Display s].

Definition search_reports_not_found (roll : Z) (w : World) : Prop :=
  cout (exec (searchStudent roll) w) = cout w ++ [EnterRollNoToSearch; StudentNotFound].

Definition has_char (c : ascii) (t : text) : bool := existsb (Ascii.eqb c) t.

(** A field value with neither the delimiter nor a line break. *)
Definition plain_field (t : text) : bool :=
  negb (has_char COMMA t) && negb (has_char LF t).

Definition plain_record (s : Student) : bool :=
  plain_field (name s) && plain_field (department s)
  && plain_field (email s) && plain_field (phone s).

(** What [getline] can deliver: a text without a newline. *)
Definition one_line (t : text) : bool := negb (has_char LF t).

(** The records a running program can hold: the roll number is an [int]
    and every text came out of a [getline]. *)
Definition wf_student (s : Student) : bool :=
  in_int_range (rollNo s)
  && one_line (name s) && one_line (department s)
  && one_line (email s) && one_line (phone s).

Definition wf_students (l : list Student) : bool := forallb wf_student l.

(** A process started on the file another one left. *)
Definition restart (w : World) : World := mkWorld [] (students_txt w) [].

(** The file after an attempt to save the text [t]: rewritten when it can
    be opened for writing, as it was otherwise. *)
Definition saved (f : File) (t : text) : File :=
  if writable f then mkFile (Some t) true else f.


(** The read-only operations of the menu. *)
Inductive ReadOp : Type :=
| ReadView
| ReadSearch (roll : Z).

Definition run_read (op : ReadOp) : M unit :=
  match op with
  | ReadView => viewStudents
  | ReadSearch roll => searchStudent roll
  end.

Fixpoint run_reads (ops : list ReadOp) : M unit :=
  match ops with
  | [] => mret tt
  | op :: ops' => run_read op;; run_reads ops'
  end.

(** One turn of [menu], with the values it reads from [cin]. *)
Inductive Command : Type :=
| CmdAdd (roll : Z) (name dept email phone : text)
| CmdView
| CmdSearch (roll : Z)
| CmdUpdate (roll : Z) (newName : text)
| CmdDelete (roll : Z).

(** The [switch] of [menu]. *)
Definition dispatch (c : Command) : M unit :=
  match c with
  | CmdAdd roll name dept email phone => addStudent roll name dept email phone
  | CmdView => viewStudents
  | CmdSearch roll => searchStudent roll
  | CmdUpdate roll newName => updateStudent roll newName
  | CmdDelete roll => deleteStudent roll
  end.

Fixpoint menu (cs : list Command) : M unit :=
  match cs with
  | [] => mret tt
  | c :: cs' => dispatch c;; menu cs'
  end.

(** What [cin] can deliver: [cin >> roll] gives an [int], [getline] a text
    without a newline. *)
Definition valid_input (c : Command) : bool :=
  match c with
  | CmdAdd roll name dept email phone =>
      in_int_range roll && one_line name && one_line dept
      && one_line email && one_line phone
  | CmdUpdate roll newName => in_int_range roll && one_line newName
  | CmdView => true
  | CmdSearch roll | CmdDelete roll => in_int_range roll
  end.

(** ** The program on its standard input *)

(** [cin]: the characters not yet read and the two state bits the program
    can run into ([badbit] never comes up on a stream of characters). *)
Record istream : Type := mkIstream {
  rdbuf : text;
  eofbit : bool;
  failbit : bool
}.

Definition good (s : istream) : bool := negb (eofbit s) && negb (failbit s).

(** [istream::sentry]: on a stream that is not good it sets [failbit] and
    fails; when white space is to be skipped and only white space is left
    it sets [eofbit] and [failbit] and fails. *)
Definition sentry (noskipws : bool) (s : istream) : bool * istream :=
  if negb (good s) then (false, mkIstream (rdbuf s) (eofbit s) true)
  else if noskipws then (true, s)
  else match skip_space (rdbuf s) with
       | [] => (false, mkIstream [] true true)
       | b => (true, mkIstream b false false)
       end.

(** The longest run of digits at the head of a text, and what follows. *)
Fixpoint span_digits (b : text) : text * text :=
  match b with
  | c :: b' =>
      if isdigit c then let '(ds, rest) := span_digits b' in (c :: ds, rest)
      else ([], b)
  | [] => ([], [])
  end.

(** [cin >> v] for an [int] variable holding [v]. A failed sentry leaves
    the variable alone. Otherwise a sign and the digits that follow are
    consumed; without a digit the variable becomes 0 and [failbit] is set;
    a value outside [int] is replaced by the nearest bound and [failbit] is
    set; running into the end of the input sets [eofbit]. *)
Definition extract_int (v : Z) (s : istream) : Z * istream :=
  let '(ok, s) := sentry false s in
  if negb ok then (v, s)
  else
    let '(neg, b) :=
      match rdbuf s with
      | c :: b' =>
          if Ascii.eqb c "-" then (true, b')
          else if Ascii.eqb c "+" then (false, b')
          else (false, rdbuf s)
      | [] => (false, [])
      end in
    let '(ds, rest) := span_digits b in
    let at_end := is_empty rest in
    match ds with
    | [] => (0, mkIstream rest at_end true)
    | _ =>
        let n := read_digits 0 ds in
        let n := if neg then - n else n in
        if n <? INT_MIN then (INT_MIN, mkIstream rest at_end true)
        else if INT_MAX <? n then (INT_MAX, mkIstream rest at_end true)
        else (n, mkIstream rest at_end false)
    end.

(** [cin.ignore()]: drops one character; at the end of the input it sets
    [eofbit]. *)
Definition ignore (s : istream) : istream :=
  let '(ok, s) := sentry true s in
  if negb ok then s
  else match rdbuf s with
       | [] => mkIstream [] true false
       | _ :: b => mkIstream b false false
       end.

(** [getline(cin, str)] for a string holding [str]: a failed sentry leaves
    the string alone; otherwise the string is erased and filled up to the
    newline, which is consumed; without a newline [eofbit] is set, and
    when there was nothing at all to extract [failbit] as well. *)
Definition extract_line (str : text) (s : istream) : text * istream :=
  let '(ok, s) := sentry true s in
  if negb ok then (str, s)
  else match rdbuf s with
       | [] => ([], mkIstream [] true true)
       | b => let '(line, rest) := until_LF b in
              (line, mkIstream rest (negb (has_char LF b)) false)
       end.

(** What appears on the screen: the messages of the methods and those of
    [menu]. *)
Inductive Event : Type :=
| Shown (o : Output)
| MenuShown          (* the six menu lines and "Enter choice: " *)
| InvalidChoice      (* "Invalid Choice!" *)
| Exiting.           (* "Exiting..." *)

(** The process: [cin], the vector of the [StudentSystem], the content of
    [students.txt] and the screen. *)
Record Process : Type := mkProcess {
  cin : istream;
  vec : list Student;
  disk : File;
  screen : list Event
}.

Definition IO (A : Type) : Type := Process -> Result A * Process.

#[global] Instance IO_ret : MRet IO := fun A (a : A) p => (Ok a, p).

#[global] Instance IO_bind : MBind IO := fun A B (k : A -> IO B) (m : IO A) p =>
  match m p with
  | (Ok a, p') => k a p'
  | (Throw e, p') => (Throw e, p')
  end.

(** The statements of a method that do not read [cin], run on the vector
    and the file; what they print goes to the screen. *)
Definition call {A} (m : M A) : IO A :=
  fun p =>
    let '(r, w) := m (mkWorld (vec p) (disk p) []) in
    (r, mkProcess (cin p) (students w) (students_txt w)
          (screen p ++ map Shown (cout w))).

Definition say (e : Event) : IO unit :=
  fun p => (Ok tt, mkProcess (cin p) (vec p) (disk p) (screen p ++ [e])).

Definition cin_int (v : Z) : IO Z :=
  fun p => let '(v', s) := extract_int v (cin p) in
           (Ok v', mkProcess s (vec p) (disk p) (screen p)).

Definition cin_ignore : IO unit :=
  fun p => (Ok tt, mkProcess (ignore (cin p)) (vec p) (disk p) (screen p)).

Definition cin_getline (str : text) : IO text :=
  fun p => let '(line, s) := extract_line str (cin p) in
           (Ok line, mkProcess s (vec p) (disk p) (screen p)).

(** [addStudent()] as written; [roll0] is what the uninitialised [roll]
    holds. *)
Definition addStudent_cin (roll0 : Z) : IO unit :=
  say (Shown EnterRollNo);;
  roll ← cin_int roll0;
  cin_ignore;;
  say (Shown EnterName);;
  name ← cin_getline [];
  say (Shown EnterDepartment);;
  dept ← cin_getline [];
  say (Shown EnterEmail);;
  email ← cin_getline [];
  say (Shown EnterPhone);;
  phone ← cin_getline [];
  call (modify_students (fun l => l ++ [mkStudent roll name dept email phone]);;
        saveToFile;;
        print StudentAdded).

Definition searchStudent_cin (roll0 : Z) : IO unit :=
  say (Shown EnterRollNoToSearch);;
  roll ← cin_int roll0;
  call (l ← get_students;
        found ← search_loop roll l;
        if negb found then print StudentNotFound else mret tt).

Fixpoint update_loop_cin (roll : Z) (i : nat) (todo : list Student) : IO bool :=
  match todo with
  | [] => mret false
  | s :: rest =>
      if getRollNo s =? roll then
        say (Shown EnterNewName);;
        newName ← cin_getline [];
        call (modify_students (fun l => <[i := setName newName s]> l);;
              saveToFile;;
              print StudentUpdated);;
        mret true
      else update_loop_cin roll (S i) rest
  end.

Definition updateStudent_cin (roll0 : Z) : IO unit :=
  say (Shown EnterRollNoToUpdate);;
  roll ← cin_int roll0;
  cin_ignore;;
  l ← call get_students;
  found ← update_loop_cin roll O l;
  if negb found then say (Shown StudentNotFound) else mret tt.

Definition deleteStudent_cin (roll0 : Z) : IO unit :=
  say (Shown EnterRollNoToDelete);;
  roll ← cin_int roll0;
  call (l ← get_students;
        found ← delete_loop roll O l;
        if negb found then print StudentNotFound else mret tt).

(** [menu()]: the [do ... while (choice != 6)] loop. [choice] is what the
    variable holds when the turn starts, [indet k] what the uninitialised
    [roll] of the method called in turn [k] holds. The result is [true]
    when the loop ended, [false] when the fuel ran out first. *)
Fixpoint menu_cin (fuel : nat) (indet : nat -> Z) (k : nat) (choice : Z) : IO bool :=
  match fuel with
  | O => mret false
  | S fuel' =>
      say MenuShown;;
      choice' ← cin_int choice;
      cin_ignore;;
      match choice' with
      | 1 => addStudent_cin (indet k)
      | 2 => call viewStudents
      | 3 => searchStudent_cin (indet k)
      | 4 => updateStudent_cin (indet k)
      | 5 => deleteStudent_cin (indet k)
      | 6 => say Exiting
      | _ => say InvalidChoice
      end;;
      if choice' =? 6 then mret true
      else menu_cin fuel' indet (S k) choice'
  end.

(** [main()]: construct the system, run the menu. [indet_load] serves
    the default-constructed records of the loading, [choice0] is what the
    uninitialised [choice] holds. *)
Definition main_cin (fuel : nat) (indet_load indet : nat -> Z) (choice0 : Z) : IO bool :=
  call (StudentSystem_new indet_load);;
  menu_cin fuel indet O choice0.

(** The process at its start: the input to come, the file as it is. *)
Definition start (input : text) (file : File) : Process :=
  mkProcess (mkIstream input false false) [] file [].

(** What the user types for one turn of the menu: the choice, then one
    line for each value the method asks for. [updateStudent] asks for the
    name only when it found the roll number. *)
Definition typed (w : World) (c : Command) : text :=
  match c with
  | CmdAdd roll name dept email phone =>
      txt "1" ++ LF :: to_dec roll ++ LF :: name ++ LF :: dept ++ LF :: email
        ++ LF :: phone ++ [LF]
  | CmdView => txt "2" ++ [LF]
  | CmdSearch roll => txt "3" ++ LF :: to_dec roll ++ [LF]
  | CmdUpdate roll newName =>
      txt "4" ++ LF :: to_dec roll ++ LF ::
        match findByRoll roll (students w) with
        | Some _ => newName ++ [LF]
        | None => []
        end
  | CmdDelete roll => txt "5" ++ LF :: to_dec roll ++ [LF]
  end.

Fixpoint session (w : World) (cs : list Command) : text :=
  match cs with
  | [] => []
  | c :: cs' => typed w c ++ session (exec (dispatch c) w) cs'
  end.

(** The number a turn is chosen by, and what a turn leaves on its last
    line: [searchStudent] and [deleteStudent] do not call [cin.ignore()]
    after reading the roll number. *)
Definition choice_of (c : Command) : Z :=
  match c with
  | CmdAdd _ _ _ _ _ => 1
  | CmdView => 2
  | CmdSearch _ => 3
  | CmdUpdate _ _ => 4
  | CmdDelete _ => 5
  end.

Definition typed_body (w : World) (c : Command) : text :=
  match c with
  | CmdSearch roll => txt "3" ++ LF :: to_dec roll
  | CmdDelete roll => txt "5" ++ LF :: to_dec roll
  | _ => typed w c
  end.

Definition pending (c : Command) : text :=
  match c with
  | CmdSearch _ | CmdDelete _ => [LF]
  | _ => []
  end.

(** A world with its [cout] wiped. *)
Definition reset (w : World) : World := mkWorld (students w) (students_txt w) [].

(** What a session shows on the screen: the menu before every turn, what
    the method of the turn prints, and at last the menu and the farewell. *)
Fixpoint session_screen (w : World) (cs : list Command) : list Event :=
  match cs with
  | [] => [MenuShown; Exiting]
  | c :: cs' =>
      MenuShown :: map Shown (cout (exec (dispatch c) (reset w)))
        ++ session_screen (exec (dispatch c) w) cs'
  end.


(** The vector and the file of a process, as a world with a clean [cout]. *)
Definition world_of_process (p : Process) : World := mkWorld (vec p) (disk p) [].

(** Sample worlds: the file holds the serialization of the vector. *)
Definition world_of (l : list Student) : World :=
  mkWorld l (file_with (serialize l)) [].


Definition two_students : World := world_of [Alice; Bob].

Definition twins : World := world_of [Alice; Alan].

(** The parts of a line put together again, a comma between two parts. *)
Fixpoint join (parts : list text) : text :=
  match parts with
  | [] => []
  | [p] => p
  | p :: ps => p ++ COMMA :: join ps
  end.

Fixpoint count_char (c : ascii) (t : text) : nat :=
  match t with
  | [] => O
  | x :: t' => ((if Ascii.eqb c x then 1 else 0) + count_char c t')%nat
  end.

(** What a process reads back from the serialization of a sequence: the
    records without a comma in their texts as they were, the others as
    default-constructed records. [k] is the number of the first line. *)
Fixpoint reloaded (indet : nat -> Z) (k : nat) (l : list Student) : list Student :=
  match l with
  | [] => []
  | s :: l' =>
      (if plain_record s then s else Student_default (indet k))
        :: reloaded indet (S k) l'
  end.

(** The answer of a search: the last thing [searchStudent] prints. *)
Definition search_answer (roll : Z) (w : World) : option Output :=
  last (cout (exec (searchStudent roll) w)).

(** A text that does not go on with a digit. *)
Definition starts_without_digit (t : text) : bool :=
  match t with
  | [] => true
  | c :: _ => negb (isdigit c)
  end.

(** The file holds exactly the serialization of the vector. *)
Definition in_sync (w : World) : Prop :=
  content (students_txt w) = Some (serialize (students w)).

(** * Properties *)

(** ** Examples *)

Example fromString_alice :
  fromString 0 (txt "1,Alice,CS,a@x.com,555")
  = Ok (mkStudent 1 (txt "Alice") (txt "CS") (txt "a@x.com") (txt "555")).
Proof. reflexivity. Qed.

Example to_dec_examples :
  to_dec 0 = txt "0" /\ to_dec 42 = txt "42" /\ to_dec (-2147483648) = txt "-2147483648".
Proof. repeat split. Qed.

Example stoi_examples :
  stoi (txt " +12abc") = Ok 12 /\ stoi (txt "-7") = Ok (-7)
  /\ stoi (txt "x") = Throw invalid_argument
  /\ stoi (txt "2147483648") = Throw out_of_range
  /\ stoi (txt "- 1") = Throw invalid_argument.
Proof. repeat split. Qed.

Example scenario_students :
  students (exec scenario fresh_world) = [setName (txt "Alicia") Alice]
  /\ students_txt (exec scenario fresh_world)
     = file_with (txt "1,Alicia,CS,a@x.com,555" ++ [LF]).
Proof. split; reflexivity. Qed.

(** ** Characters and decimal numbers *)

Lemma has_char_false c t : has_char c t = false <-> c ∉ t.
Proof.
  unfold has_char. induction t as [|x t IH]; simpl.
  - split; [intros _; apply not_elem_of_nil | reflexivity].
  - rewrite not_elem_of_cons, orb_false_iff, IH, Ascii.eqb_neq. tauto.
Qed.

Lemma has_char_cons c x t : has_char c (x :: t) = Ascii.eqb c x || has_char c t.
Proof. reflexivity. Qed.

Lemma has_char_app c a b : has_char c (a ++ b) = has_char c a || has_char c b.
Proof. unfold has_char. apply existsb_app. Qed.

Lemma digit_char_spec d :
  0 <= d < 10 -> isdigit (digit_char d) = true /\ digit_val (digit_char d) = d.
Proof.
  intros H.
  assert (Hd : d = 0 \/ d = 1 \/ d = 2 \/ d = 3 \/ d = 4 \/ d = 5 \/ d = 6
               \/ d = 7 \/ d = 8 \/ d = 9) by lia.
  repeat (destruct Hd as [-> | Hd]; [split; reflexivity |]).
  subst d. split; reflexivity.
Qed.

(** A digit is neither white space, nor a sign, nor a separator. *)
Lemma isdigit_plain c :
  isdigit c = true ->
  isspace c = false /\ Ascii.eqb c "-" = false /\ Ascii.eqb c "+" = false
  /\ Ascii.eqb COMMA c = false /\ Ascii.eqb LF c = false.
Proof.
  destruct c as [[] [] [] [] [] [] [] []]; vm_compute; intros H;
    solve [discriminate H | repeat split].
Qed.

Lemma read_digits_snoc ds c acc :
  forallb isdigit ds = true -> isdigit c = true ->
  read_digits acc (ds ++ [c]) = read_digits acc ds * 10 + digit_val c.
Proof.
  revert acc. induction ds as [|x ds IH]; intros acc Hds Hc; simpl in *.
  - rewrite Hc. reflexivity.
  - apply andb_true_iff in Hds as [Hx Hds]. rewrite Hx. apply IH; assumption.
Qed.

Lemma dec_digits_spec fuel n :
  0 <= n < 2 ^ Z.of_nat (S fuel) ->
  forallb isdigit (dec_digits (S fuel) n) = true
  /\ read_digits 0 (dec_digits (S fuel) n) = n
  /\ dec_digits (S fuel) n <> [].
Proof.
  revert n. induction fuel as [|fuel IH]; intros n Hn.
  - assert (n = 0 \/ n = 1) as [-> | ->] by (change (2 ^ Z.of_nat 1) with 2 in Hn; lia);
      repeat split; discriminate.
  - change (dec_digits (S (S fuel)) n)
      with (if n <? 10 then [digit_char n]
            else dec_digits (S fuel) (n / 10) ++ [digit_char (n mod 10)]).
    destruct (Z.ltb_spec n 10) as [Hlt | Hge].
    + destruct (digit_char_spec n) as [Hd Hv]; [lia|].
      revert Hd Hv. generalize (digit_char n). intros c Hd Hv.
      cbn [forallb read_digits]. rewrite Hd, Hv. repeat split. discriminate.
    + assert (Hq : 0 <= n / 10 < 2 ^ Z.of_nat (S fuel)).
      { rewrite (Nat2Z.inj_succ (S fuel)), Z.pow_succ_r in Hn by lia.
        split; [apply Z.div_pos; lia |].
        apply Z.div_lt_upper_bound; lia. }
      destruct (IH _ Hq) as (Hall & Hval & Hne).
      destruct (digit_char_spec (n mod 10)) as [Hd Hv];
        [apply Z.mod_pos_bound; lia |].
      revert Hd Hv. generalize (digit_char (n mod 10)). intros c Hd Hv.
      split; [| split].
      * rewrite forallb_app, Hall. cbn [forallb]. rewrite Hd. reflexivity.
      * rewrite read_digits_snoc, Hval, Hv by assumption.
        pose proof (Z.div_mod n 10). lia.
      * destruct (dec_digits (S fuel) (n / 10)); [contradiction | discriminate].
Qed.

Lemma log2_fuel n : 0 <= n -> n < 2 ^ Z.of_nat (S (Z.to_nat (Z.log2 n))).
Proof.
  intros Hn. rewrite Nat2Z.inj_succ, Z2Nat.id by apply Z.log2_nonneg.
  destruct (Z.eq_dec n 0) as [-> | Hne]; [reflexivity |].
  apply Z.log2_spec. lia.
Qed.

(** The decimal text of a number has no comma and no newline. *)
Lemma to_dec_plain n : has_char COMMA (to_dec n) = false /\ has_char LF (to_dec n) = false.
Proof.
  assert (Hds : forall ds, forallb isdigit ds = true ->
                  has_char COMMA ds = false /\ has_char LF ds = false).
  { unfold has_char. induction ds as [|c ds IH]; cbn [forallb existsb];
      [intros _; split; reflexivity |].
    intros [Hc Hds]%andb_true_iff. destruct (IH Hds) as [-> ->].
    destruct (isdigit_plain c Hc) as (_ & _ & _ & -> & ->). split; reflexivity. }
  unfold to_dec. destruct (Z.ltb_spec n 0) as [Hneg | Hpos].
  - destruct (dec_digits_spec (Z.to_nat (Z.log2 (- n))) (- n)) as (Hall & _ & _).
    { split; [lia | apply log2_fuel; lia]. }
    destruct (Hds _ Hall) as [Hc Hl]. unfold has_char in *. cbn [existsb].
    rewrite Hc, Hl. split; reflexivity.
  - destruct (dec_digits_spec (Z.to_nat (Z.log2 n)) n) as (Hall & _ & _).
    { split; [lia | apply log2_fuel; lia]. }
    apply Hds, Hall.
Qed.

(** [stoi] reads back what [out << n] wrote. *)
Lemma stoi_to_dec n : int_range n -> stoi (to_dec n) = Ok n.
Proof.
  intros Hr. unfold to_dec.
  assert (Hin : in_int_range n = true).
  { unfold in_int_range, int_range in *. apply andb_true_iff.
    split; apply Z.leb_le; lia. }
  destruct (Z.ltb_spec n 0) as [Hneg | Hpos].
  - destruct (dec_digits_spec (Z.to_nat (Z.log2 (- n))) (- n)) as (Hall & Hval & Hne).
    { split; [lia | apply log2_fuel; lia]. }
    destruct (dec_digits _ (- n)) as [|c ds] eqn:E; [contradiction |].
    assert (Hc : isdigit c = true) by (simpl in Hall; apply andb_true_iff in Hall; tauto).
    unfold stoi. cbn [skip_space]. change (isspace "-") with false. cbv iota.
    change (Ascii.eqb "-" "-") with true. cbv iota beta. rewrite Hc, Hval.
    replace (- - n) with n by lia. rewrite Hin. reflexivity.
  - destruct (dec_digits_spec (Z.to_nat (Z.log2 n)) n) as (Hall & Hval & Hne).
    { split; [lia | apply log2_fuel; lia]. }
    destruct (dec_digits _ n) as [|c ds] eqn:E; [contradiction |].
    assert (Hc : isdigit c = true) by (simpl in Hall; apply andb_true_iff in Hall; tauto).
    destruct (isdigit_plain c Hc) as (Hs & Hm & Hp & _).
    unfold stoi. cbn [skip_space]. rewrite Hs, Hm, Hp. cbv iota beta.
    rewrite Hc, Hval, Hin. reflexivity.
Qed.

(** ** Splitting a line at the commas *)

Lemma find_None c line : find c line = None <-> has_char c line = false.
Proof.
  unfold has_char. induction line as [|x line IH]; cbn [find existsb]; [tauto |].
  rewrite (Ascii.eqb_sym c x).
  destruct (Ascii.eqb x c); cbn [orb]; [split; discriminate |].
  destruct (find c line); [split; [discriminate | intros H; apply IH in H; discriminate] |].
  tauto.
Qed.

Lemma find_app c a r : has_char c a = false -> find c (a ++ c :: r) = Some (length a).
Proof.
  unfold has_char. induction a as [|x a IH]; cbn [find existsb app length].
  - rewrite Ascii.eqb_refl. reflexivity.
  - rewrite (Ascii.eqb_sym c x). intros [-> Ha]%orb_false_iff. rewrite (IH Ha). reflexivity.
Qed.

(** What [find] returns is the position of a comma with none before it. *)
Lemma find_Some c line pos :
  find c line = Some pos ->
  line = take pos line ++ c :: drop (S pos) line
  /\ has_char c (take pos line) = false /\ (pos < length line)%nat.
Proof.
  unfold has_char. revert pos. induction line as [|x line IH]; intros pos; cbn [find].
  - discriminate.
  - destruct (Ascii.eqb_spec x c) as [-> | Hne].
    + intros [= <-]. repeat split. cbn. lia.
    + destruct (find c line) as [p|]; [| discriminate].
      intros [= <-]. destruct (IH p eq_refl) as (Heq & Hno & Hlt).
      cbn [take drop existsb app length]. rewrite <- Heq, Hno.
      apply Ascii.eqb_neq in Hne. rewrite (Ascii.eqb_sym c x), Hne.
      repeat split. lia.
Qed.

(** The loop of [fromString] ends before its fuel does, and what it
    collects does not depend on the fuel. *)
Lemma split_loop_total fuel line :
  (length line < fuel)%nat ->
  exists ps, forall fuel' parts,
    (length line < fuel')%nat -> split_loop fuel' line parts = Some (parts ++ ps).
Proof.
  revert line. induction fuel as [|fuel IH]; intros line Hlen; [lia |].
  destruct (find COMMA line) as [pos|] eqn:Hfind.
  - destruct (find_Some _ _ _ Hfind) as (_ & _ & Hpos).
    destruct (IH (drop (S pos) line)) as [ps Hps].
    { rewrite length_drop. lia. }
    exists (take pos line :: ps). intros [|fuel'] parts Hfuel; [lia |].
    cbn [split_loop]. rewrite Hfind, Hps by (rewrite length_drop; lia).
    rewrite <- app_assoc. reflexivity.
  - exists [line]. intros [|fuel'] parts Hfuel; [lia |].
    cbn [split_loop]. rewrite Hfind. reflexivity.
Qed.

Lemma split_loop_fuel fuel line parts :
  (length line < fuel)%nat -> split_loop fuel line parts = Some (parts ++ split line).
Proof.
  intros Hfuel. destruct (split_loop_total (S (length line)) line) as [ps Hps]; [lia |].
  unfold split. rewrite (Hps (S (length line)) []), (Hps fuel parts) by lia.
  reflexivity.
Qed.

Lemma split_plain line : has_char COMMA line = false -> split line = [line].
Proof.
  intros H. apply find_None in H. unfold split. cbn [split_loop]. rewrite H.
  reflexivity.
Qed.

Lemma split_cons a r :
  has_char COMMA a = false -> split (a ++ COMMA :: r) = a :: split r.
Proof.
  intros H. unfold split at 1. cbn [split_loop]. rewrite (find_app _ _ _ H).
  rewrite take_app_length.
  replace (drop (S (length a)) (a ++ COMMA :: r)) with r.
  2:{ rewrite (cons_middle COMMA a r), app_assoc.
      rewrite drop_app_length'; [reflexivity |]. rewrite length_app. cbn. lia. }
  rewrite split_loop_fuel; [reflexivity |]. rewrite length_app. cbn. lia.
Qed.

(** ** [fromString] *)

(** A line with five parts: the first is converted, the others are copied. *)
Lemma fromString_five indet line p0 p1 p2 p3 p4 :
  split line = [p0; p1; p2; p3; p4] ->
  fromString indet line
  = match stoi p0 with
    | Ok r => Ok (mkStudent r p1 p2 p3 p4)
    | Throw e => Throw e
    end.
Proof. intros H. unfold fromString. rewrite H. reflexivity. Qed.

(** Any other number of parts: the default-constructed record, no error. *)
Lemma fromString_malformed indet line :
  length (split line) <> 5%nat ->
  fromString indet line = Ok (Student_default indet).
Proof.
  intros H. unfold fromString.
  destruct (split line) as [|p0 [|p1 [|p2 [|p3 [|p4 [|p5 ps]]]]]]; try reflexivity.
  contradiction H. reflexivity.
Qed.

Lemma split_line_of s :
  plain_record s = true ->
  split (line_of s) = [to_dec (rollNo s); name s; department s; email s; phone s].
Proof.
  unfold plain_record, plain_field.
  rewrite !andb_true_iff, !negb_true_iff. intros ((((Hn & _) & (Hd & _)) & (He & _)) & (Hp & _)).
  unfold line_of. destruct (to_dec_plain (rollNo s)) as [Hr _].
  rewrite !split_cons, split_plain by assumption. reflexivity.
Qed.

Lemma fromString_line_of indet s :
  int_range (rollNo s) -> plain_record s = true ->
  fromString indet (line_of s) = Ok s.
Proof.
  intros Hr Hp. rewrite (fromString_five _ _ _ _ _ _ _ (split_line_of s Hp)).
  rewrite (stoi_to_dec _ Hr). destruct s; reflexivity.
Qed.

(** [stoi] throws [invalid_argument] on a text without any digit. *)
Lemma stoi_no_digit p : existsb isdigit p = false -> stoi p = Throw invalid_argument.
Proof.
  intros H.
  assert (Hskip : existsb isdigit (skip_space p) = false).
  { induction p as [|c p IH]; [reflexivity |]. cbn [skip_space].
    destruct (isspace c); [| assumption].
    cbn [existsb] in H. apply orb_false_iff in H as [_ H]. auto. }
  unfold stoi. destruct (skip_space p) as [|c s]; [reflexivity |].
  cbn [existsb] in Hskip. apply orb_false_iff in Hskip as [Hc Hs].
  destruct (Ascii.eqb c "-"); [| destruct (Ascii.eqb c "+")].
  - destruct s as [|d s]; [reflexivity |].
    cbn [existsb] in Hs. apply orb_false_iff in Hs as [-> _]. reflexivity.
  - destruct s as [|d s]; [reflexivity |].
    cbn [existsb] in Hs. apply orb_false_iff in Hs as [-> _]. reflexivity.
  - rewrite Hc. reflexivity.
Qed.

(** ** Reading lines *)

Lemma until_LF_app a r : has_char LF a = false -> until_LF (a ++ LF :: r) = (a, r).
Proof.
  unfold has_char. induction a as [|x a IH]; cbn [until_LF existsb app].
  - rewrite Ascii.eqb_refl. reflexivity.
  - rewrite (Ascii.eqb_sym LF x). intros [-> Ha]%orb_false_iff. rewrite (IH Ha). reflexivity.
Qed.

Lemma until_LF_rest s : (length (snd (until_LF s)) <= length s)%nat.
Proof.
  induction s as [|x s IH]; cbn [until_LF]; [reflexivity |].
  destruct (Ascii.eqb x LF); [cbn; lia |].
  destruct (until_LF s) as [l r]. cbn in *. lia.
Qed.

(** [getline] delivers lines without a newline. *)
Lemma until_LF_line s : has_char LF (fst (until_LF s)) = false.
Proof.
  unfold has_char. induction s as [|x s IH]; cbn [until_LF]; [reflexivity |].
  destruct (Ascii.eqb x LF) eqn:E; [reflexivity |].
  destruct (until_LF s) as [l r]. cbn [fst existsb] in *.
  rewrite (Ascii.eqb_sym LF x), E, IH. reflexivity.
Qed.

(** The reading loop ends before its fuel does. *)
Lemma getlines_loop_total fuel input :
  (length input < fuel)%nat ->
  exists ls, forall fuel',
    (length input < fuel')%nat -> getlines_loop fuel' input = Some ls.
Proof.
  revert input. induction fuel as [|fuel IH]; intros input Hlen; [lia |].
  destruct input as [|c s].
  - exists []. intros [|fuel'] Hfuel; [lia | reflexivity].
  - pose proof (until_LF_rest (c :: s)) as Hrest.
    destruct (until_LF (c :: s)) as [line rest] eqn:E. cbn [snd] in Hrest.
    assert (Hlt : (length rest < length (c :: s))%nat).
    { revert E. cbn [until_LF]. destruct (Ascii.eqb c LF).
      - intros [= _ <-]. cbn. lia.
      - pose proof (until_LF_rest s) as Hs. destruct (until_LF s) as [l r].
        intros [= _ <-]. cbn in *. lia. }
    destruct (IH rest) as [ls Hls]; [lia |].
    exists (line :: ls). intros [|fuel'] Hfuel; [lia |].
    cbn [getlines_loop getline]. rewrite E, Hls by lia. reflexivity.
Qed.

Lemma getlines_loop_fuel fuel input :
  (length input < fuel)%nat -> getlines_loop fuel input = Some (getlines input).
Proof.
  intros Hfuel. destruct (getlines_loop_total (S (length input)) input) as [ls Hls]; [lia |].
  unfold getlines. rewrite (Hls (S (length input))), (Hls fuel) by lia. reflexivity.
Qed.

Lemma getlines_nil : getlines [] = [].
Proof. reflexivity. Qed.

Lemma getlines_cons a r :
  has_char LF a = false -> getlines (a ++ LF :: r) = a :: getlines r.
Proof.
  intros H. unfold getlines at 1. cbn [getlines_loop].
  assert (Hg : getline (a ++ LF :: r) = Some (a, r)).
  { unfold getline. rewrite (until_LF_app _ _ H). destruct a; reflexivity. }
  rewrite Hg, getlines_loop_fuel; [reflexivity |]. rewrite length_app. cbn. lia.
Qed.

(** Every line read is free of newlines. *)
Lemma getlines_one_line input :
  Forall (fun l => has_char LF l = false) (getlines input).
Proof.
  remember (S (length input)) as fuel eqn:Hfuel.
  assert (Hlen : (length input < fuel)%nat) by lia. clear Hfuel.
  revert input Hlen. induction fuel as [|fuel IH]; intros input Hlen; [lia |].
  pose proof (getlines_loop_fuel (S fuel) input Hlen) as Hg.
  cbn [getlines_loop] in Hg. destruct input as [|c s].
  - rewrite getlines_nil. constructor.
  - cbn [getline] in Hg.
    pose proof (until_LF_line (c :: s)) as Hline.
    pose proof (until_LF_rest (c :: s)) as Hrest.
    destruct (until_LF (c :: s)) as [line rest] eqn:E. cbn [fst snd] in *.
    assert (Hlt : (length rest < fuel)%nat).
    { revert E. cbn [until_LF]. destruct (Ascii.eqb c LF).
      - intros [= _ <-]. cbn in Hlen. lia.
      - pose proof (until_LF_rest s) as Hs. destruct (until_LF s) as [l r].
        intros [= _ <-]. cbn in *. lia. }
    rewrite (getlines_loop_fuel fuel rest Hlt) in Hg. injection Hg as <-.
    constructor; [assumption | apply IH; assumption].
Qed.

(** ** The serialized file, read back line by line *)


Lemma line_of_one_line s : wf_student s = true -> has_char LF (line_of s) = false.
Proof.
  unfold wf_student, one_line. rewrite !andb_true_iff, !negb_true_iff.
  intros ((((_ & Hn) & Hd) & He) & Hp).
  destruct (to_dec_plain (rollNo s)) as [_ Hr].
  unfold line_of.
  rewrite !has_char_app, !has_char_cons, !has_char_app, !has_char_cons,
    !has_char_app, !has_char_cons, !has_char_app, !has_char_cons.
  rewrite Hr, Hn, Hd, He, Hp. reflexivity.
Qed.

Lemma getlines_serialize l rest :
  wf_students l = true ->
  getlines (serialize l ++ rest) = map line_of l ++ getlines rest.
Proof.
  induction l as [|s l IH]; cbn [serialize wf_students forallb map app]; [reflexivity |].
  intros [Hs Hl]%andb_true_iff.
  unfold Student_saveToFile. rewrite <- !app_assoc. cbn [app].
  rewrite getlines_cons by (apply line_of_one_line; assumption).
  rewrite (IH Hl). reflexivity.
Qed.

(** ** The methods of [StudentSystem], step by step *)

Ltac run :=
  cbv [mbind M_bind mret M_ret print get_students modify_students
       ofstream_put ifstream_open lift exec outcome];
  cbn [fst snd students students_txt cout content writable default from_option id].

Lemma save_loop_open l w t b :
  students_txt w = mkFile (Some t) b ->
  save_loop true l w
  = (Ok tt, mkWorld (students w) (mkFile (Some (t ++ serialize l)) b) (cout w)).
Proof.
  revert w t. induction l as [|s l IH]; intros [st f c] t H; cbn in H; subst f.
  - cbn [save_loop serialize]. run. rewrite app_nil_r. reflexivity.
  - cbn [save_loop serialize]. run.
    rewrite (IH _ (t ++ Student_saveToFile s)) by reflexivity.
    cbn [students cout]. rewrite app_assoc. reflexivity.
Qed.

(** On a stream that failed to open nothing is written. *)
Lemma save_loop_failed l w : save_loop false l w = (Ok tt, w).
Proof.
  induction l as [|s l IH]; [reflexivity |].
  cbn [save_loop]. run. exact IH.
Qed.

(** [saveToFile] replaces the content of the file by the serialization of
    the vector when the file can be opened for writing, leaves it as it
    was otherwise, and touches nothing else. *)
Lemma saveToFile_spec w :
  saveToFile w
  = (Ok tt,
     mkWorld (students w) (saved (students_txt w) (serialize (students w))) (cout w)).
Proof.
  unfold saveToFile, saved, ofstream_open. run.
  destruct (writable (students_txt w)) eqn:Hw.
  - cbn [students]. rewrite (save_loop_open _ _ [] true) by reflexivity. reflexivity.
  - cbn [students]. rewrite save_loop_failed. destruct w; reflexivity.
Qed.



Lemma saved_twice f t1 t2 : saved (saved f t1) t2 = saved f t2.
Proof. unfold saved. destruct (writable f) eqn:E; cbn [writable]; rewrite ?E; reflexivity. Qed.


Lemma addStudent_spec roll n d e p w :
  addStudent roll n d e p w
  = (Ok tt,
     let l' := students w ++ [mkStudent roll n d e p] in
     mkWorld l' (saved (students_txt w) (serialize l'))
       (cout w ++ [EnterRollNo; EnterName; EnterDepartment; EnterEmail;
                   EnterPhone; StudentAdded])).
Proof.
  unfold addStudent. run. rewrite saveToFile_spec. cbn [students cout].
  rewrite <- !app_assoc. reflexivity.
Qed.

Lemma findByRoll_cons roll s l :
  findByRoll roll (s :: l)
  = if getRollNo s =? roll then Some (O, s)
    else prod_map S id <$> findByRoll roll l.
Proof.
  unfold findByRoll. cbn [list_find].
  destruct (Z.eqb_spec (getRollNo s) roll); destruct (decide (getRollNo s = roll));
    solve [reflexivity | contradiction].
Qed.

Lemma search_loop_spec roll todo w :
  search_loop roll todo w
  = match findByRoll roll todo with
    | Some (_, s) => (Ok true, mkWorld (students w) (students_txt w) (cout w ++ [Display s]))
    | None => (Ok false, w)
    end.
Proof.
  induction todo as [|s todo IH]; [reflexivity |].
  cbn [search_loop]. rewrite findByRoll_cons.
  destruct (getRollNo s =? roll); [reflexivity |].
  rewrite IH. destruct (findByRoll roll todo) as [[j x]|]; reflexivity.
Qed.

Lemma update_loop_spec roll newName todo i w :
  update_loop roll newName i todo w
  = match findByRoll roll todo with
    | Some (j, s) =>
        let l' := <[(i + j)%nat := setName newName s]> (students w) in
        (Ok true,
         mkWorld l' (saved (students_txt w) (serialize l'))
           (cout w ++ [EnterNewName; StudentUpdated]))
    | None => (Ok false, w)
    end.
Proof.
  revert i. induction todo as [|s todo IH]; intros i; [reflexivity |].
  cbn [update_loop]. rewrite findByRoll_cons.
  destruct (getRollNo s =? roll).
  - run. rewrite saveToFile_spec. cbn [students cout]. rewrite Nat.add_0_r.
    rewrite <- !app_assoc. reflexivity.
  - rewrite IH. destruct (findByRoll roll todo) as [[j x]|]; [| reflexivity].
    cbn. rewrite Nat.add_succ_r. reflexivity.
Qed.

Lemma delete_loop_spec roll todo i w :
  delete_loop roll i todo w
  = match findByRoll roll todo with
    | Some (j, _) =>
        let l' := delete (i + j)%nat (students w) in
        (Ok true,
         mkWorld l' (saved (students_txt w) (serialize l')) (cout w ++ [StudentDeleted]))
    | None => (Ok false, w)
    end.
Proof.
  revert i. induction todo as [|s todo IH]; intros i; [reflexivity |].
  cbn [delete_loop]. rewrite findByRoll_cons.
  destruct (getRollNo s =? roll).
  - run. rewrite saveToFile_spec. cbn [students cout]. rewrite Nat.add_0_r.
    reflexivity.
  - rewrite IH. destruct (findByRoll roll todo) as [[j x]|]; [| reflexivity].
    cbn. rewrite Nat.add_succ_r. reflexivity.
Qed.

Lemma searchStudent_spec roll w :
  searchStudent roll w
  = (Ok tt,
     mkWorld (students w) (students_txt w)
       (cout w ++ [EnterRollNoToSearch;
                   match findByRoll roll (students w) with
                   | Some (_, s) => Display s
                   | None => StudentNotFound
                   end])).
Proof.
  unfold searchStudent. run. rewrite search_loop_spec. cbn [students].
  destruct (findByRoll roll (students w)) as [[j x]|]; cbn;
    rewrite <- !app_assoc; reflexivity.
Qed.

Lemma updateStudent_spec roll newName w :
  updateStudent roll newName w
  = (Ok tt,
     match findByRoll roll (students w) with
     | Some (i, s) =>
         let l' := <[i := setName newName s]> (students w) in
         mkWorld l' (saved (students_txt w) (serialize l'))
           (cout w ++ [EnterRollNoToUpdate; EnterNewName; StudentUpdated])
     | None =>
         mkWorld (students w) (students_txt w)
           (cout w ++ [EnterRollNoToUpdate; StudentNotFound])
     end).
Proof.
  unfold updateStudent. run. rewrite update_loop_spec. cbn [students].
  destruct (findByRoll roll (students w)) as [[j x]|]; cbn;
    rewrite <- !app_assoc; reflexivity.
Qed.

Lemma deleteStudent_spec roll w :
  deleteStudent roll w
  = (Ok tt,
     match findByRoll roll (students w) with
     | Some (i, _) =>
         let l' := delete i (students w) in
         mkWorld l' (saved (students_txt w) (serialize l'))
           (cout w ++ [EnterRollNoToDelete; StudentDeleted])
     | None =>
         mkWorld (students w) (students_txt w)
           (cout w ++ [EnterRollNoToDelete; StudentNotFound])
     end).
Proof.
  unfold deleteStudent. run. rewrite delete_loop_spec. cbn [students].
  destruct (findByRoll roll (students w)) as [[j x]|]; cbn;
    rewrite <- !app_assoc; reflexivity.
Qed.

Lemma display_loop_spec l w :
  display_loop l w
  = (Ok tt, mkWorld (students w) (students_txt w) (cout w ++ map Display l)).
Proof.
  revert w. induction l as [|s l IH]; intros [st f c].
  - cbn. rewrite app_nil_r. reflexivity.
  - cbn [display_loop]. run. rewrite IH. cbn. rewrite <- app_assoc. reflexivity.
Qed.

Lemma viewStudents_spec w :
  viewStudents w
  = (Ok tt,
     mkWorld (students w) (students_txt w)
       (cout w ++ match students w with
                  | [] => [NoRecordsFound]
                  | l => map Display l
                  end)).
Proof.
  destruct w as [[|s l] f c]; unfold viewStudents; run; cbn [is_empty].
  - reflexivity.
  - rewrite display_loop_spec. reflexivity.
Qed.

(** ** Loading *)

Lemma load_loop_app indet ls1 ls2 k w :
  load_loop indet k (ls1 ++ ls2) w
  = match load_loop indet k ls1 w with
    | (Ok _, w1) => load_loop indet (k + length ls1) ls2 w1
    | (Throw e, w1) => (Throw e, w1)
    end.
Proof.
  revert k w. induction ls1 as [|line ls1 IH]; intros k w; cbn [load_loop app length].
  - run. rewrite Nat.add_0_r. reflexivity.
  - set (body := if negb (is_empty line) then _ else _).
    cbv [mbind M_bind]. destruct (body w) as [[[]|e] w1]; [| reflexivity].
    rewrite IH, Nat.add_succ_r. reflexivity.
Qed.

(** Loading reads the file and prints nothing: whatever happens, the file
    and the console are as before. *)
Lemma load_loop_frame indet ls k w :
  students_txt (exec (load_loop indet k ls) w) = students_txt w
  /\ cout (exec (load_loop indet k ls) w) = cout w.
Proof.
  revert k w. induction ls as [|line ls IH]; intros k w; [split; reflexivity |].
  unfold exec in *. cbn [load_loop].
  destruct (is_empty line); cbn [negb].
  - run. apply IH.
  - run. destruct (fromString (indet k) line) as [s|e]; [| split; reflexivity].
    apply (IH (S k) (mkWorld (students w ++ [s]) (students_txt w) (cout w))).
Qed.

Lemma line_of_not_empty s : is_empty (line_of s) = false.
Proof. unfold line_of. destruct (to_dec (rollNo s)); reflexivity. Qed.



Lemma plain_record_wf s :
  int_range (rollNo s) -> plain_record s = true -> wf_student s = true.
Proof.
  unfold plain_record, plain_field, wf_student, one_line, in_int_range, int_range.
  rewrite !andb_true_iff. intros [H1 H2] ((((_ & Hn) & (_ & Hd)) & (_ & He)) & (_ & Hp)).
  rewrite !Z.leb_le. tauto.
Qed.


(** ** What [findByRoll] means *)

Lemma findByRoll_Some roll l i s :
  findByRoll roll l = Some (i, s)
  <-> l !! i = Some s /\ getRollNo s = roll
      /\ forall j y, l !! j = Some y -> (j < i)%nat -> getRollNo y <> roll.
Proof. unfold findByRoll. apply (list_find_Some (fun x => getRollNo x = roll)). Qed.

Lemma findByRoll_None roll l :
  findByRoll roll l = None <-> forall y, y ∈ l -> getRollNo y <> roll.
Proof. unfold findByRoll. rewrite list_find_None, Forall_forall. reflexivity. Qed.

Lemma findByRoll_snoc_absent roll l s :
  findByRoll roll l = None -> getRollNo s = roll ->
  findByRoll roll (l ++ [s]) = Some (length l, s).
Proof.
  intros Hnone Hs. unfold findByRoll in *. rewrite list_find_app_r by assumption.
  cbn [list_find]. destruct (decide (getRollNo s = roll)); [| contradiction].
  cbn. reflexivity.
Qed.



Lemma findByRoll_insert_setName roll newName l i s :
  findByRoll roll l = Some (i, s) ->
  findByRoll roll (<[i := setName newName s]> l) = Some (i, setName newName s).
Proof.
  intros (Hi & Hs & Hfirst)%findByRoll_Some. apply findByRoll_Some.
  split; [| split].
  - apply list_lookup_insert_eq. eapply lookup_lt_Some, Hi.
  - exact Hs.
  - intros j y Hj Hlt. rewrite list_lookup_insert_ne in Hj by lia. eauto.
Qed.

(** ** The records a running program holds *)

Lemma wf_students_Forall l :
  wf_students l = true <-> Forall (fun s => wf_student s = true) l.
Proof.
  unfold wf_students. induction l as [|s l IH]; cbn [forallb].
  - split; [constructor | reflexivity].
  - rewrite andb_true_iff, IH, Forall_cons. reflexivity.
Qed.

Lemma stoi_in_range p v : stoi p = Ok v -> in_int_range v = true.
Proof.
  unfold stoi. destruct (match skip_space p with [] => _ | _ => _ end) as [neg s].
  destruct s as [|c s]; [discriminate |].
  destruct (isdigit c); [| discriminate].
  destruct (in_int_range _) eqn:E; [| discriminate].
  intros [= <-]. exact E.
Qed.

(** The parts of a line without a newline are without a newline. *)
Lemma split_parts_one_line line :
  has_char LF line = false -> Forall (fun p => has_char LF p = false) (split line).
Proof.
  remember (S (length line)) as n eqn:Hn.
  assert (Hlen : (length line < n)%nat) by lia. clear Hn.
  revert line Hlen. induction n as [|n IH]; intros line Hlen HLF; [lia |].
  destruct (find COMMA line) as [pos|] eqn:Hfind.
  - destruct (find_Some _ _ _ Hfind) as (Heq & Hno & Hpos).
    revert Heq Hno. generalize (take pos line) (drop (S pos) line).
    intros a r -> Hno.
    rewrite has_char_app, has_char_cons in HLF.
    apply orb_false_iff in HLF as [Ha [_ Hr]%orb_false_iff].
    rewrite split_cons by assumption. constructor; [assumption |].
    apply IH; [| assumption]. rewrite length_app in Hlen. cbn in Hlen. lia.
  - apply find_None in Hfind. rewrite split_plain by assumption.
    constructor; [assumption | constructor].
Qed.

Lemma fromString_wf indet line s :
  in_int_range indet = true -> has_char LF line = false ->
  fromString indet line = Ok s -> wf_student s = true.
Proof.
  intros Hindet HLF. pose proof (split_parts_one_line line HLF) as Hparts.
  assert (Hdefault : wf_student (Student_default indet) = true)
    by (unfold wf_student; cbn; rewrite Hindet; reflexivity).
  unfold fromString.
  destruct (split line) as [|p0 [|p1 [|p2 [|p3 [|p4 [|p5 ps]]]]]];
    try (intros [= <-]; exact Hdefault).
  destruct (stoi p0) as [v|e] eqn:Es; [| discriminate]. intros [= <-].
  apply stoi_in_range in Es.
  repeat match goal with H : Forall _ (_ :: _) |- _ => apply Forall_cons in H as [? H] end.
  unfold wf_student, one_line. cbn [rollNo name department email phone].
  rewrite !andb_true_iff, !negb_true_iff. tauto.
Qed.

Lemma load_loop_wf indet ls k w :
  (forall i, in_int_range (indet i) = true) ->
  Forall (fun l => has_char LF l = false) ls ->
  wf_students (students w) = true ->
  wf_students (students (exec (load_loop indet k ls) w)) = true.
Proof.
  intros Hindet Hls. revert k w.
  induction Hls as [|line ls Hline Hls IH]; intros k w Hwf; [exact Hwf |].
  unfold exec in *. cbn [load_loop]. destruct (is_empty line); cbn [negb]; run.
  - apply IH, Hwf.
  - destruct (fromString (indet k) line) as [s|e] eqn:E; [| exact Hwf].
    apply IH. cbn [students]. unfold wf_students in *.
    rewrite forallb_app, Hwf. cbn [forallb].
    rewrite (fromString_wf _ _ _ (Hindet k) Hline E). reflexivity.
Qed.

(** Construction leaves a well-formed sequence, whatever the file holds. *)
Lemma StudentSystem_new_wf indet w :
  (forall i, in_int_range (indet i) = true) ->
  wf_students (students (exec (StudentSystem_new indet) w)) = true.
Proof.
  intros Hindet. unfold StudentSystem_new, loadFromFile, exec. run.
  apply (load_loop_wf indet _ O (mkWorld [] (students_txt w) (cout w)) Hindet).
  - apply getlines_one_line.
  - reflexivity.
Qed.

(** Every turn of the menu keeps it well formed. *)
Lemma dispatch_wf c w :
  valid_input c = true -> wf_students (students w) = true ->
  outcome (dispatch c) w = Ok tt
  /\ wf_students (students (exec (dispatch c) w)) = true.
Proof.
  intros Hc Hwf. unfold exec, outcome.
  destruct c as [roll n d e p | | roll | roll newName | roll]; cbn [dispatch].
  - rewrite addStudent_spec. split; [reflexivity |]. cbn [snd students].
    unfold wf_students in *. rewrite forallb_app, Hwf. cbn [forallb].
    unfold wf_student. cbn [rollNo name department email phone].
    cbn [valid_input] in Hc. rewrite Hc. reflexivity.
  - rewrite viewStudents_spec. split; [reflexivity | exact Hwf].
  - rewrite searchStudent_spec. split; [reflexivity | exact Hwf].
  - rewrite updateStudent_spec. split; [reflexivity |]. cbn [snd].
    destruct (findByRoll roll (students w)) as [[i s]|] eqn:Hfind; [| exact Hwf].
    cbn [students]. apply wf_students_Forall, Forall_insert.
    + apply wf_students_Forall, Hwf.
    + apply findByRoll_Some in Hfind as (Hi & _).
      apply wf_students_Forall in Hwf.
      pose proof (proj1 (Forall_lookup _ _) Hwf i s Hi) as Hs.
      cbn [valid_input] in Hc. apply andb_true_iff in Hc as [_ Hname].
      revert Hs. unfold wf_student. cbn [setName rollNo name department email phone].
      rewrite !andb_true_iff. tauto.
  - rewrite deleteStudent_spec. split; [reflexivity |]. cbn [snd].
    destruct (findByRoll roll (students w)) as [[i s]|] eqn:Hfind; [| exact Hwf].
    cbn [students]. apply wf_students_Forall, Forall_delete, wf_students_Forall, Hwf.
Qed.

(** Invariant: whatever file the process starts on and whatever the user
    types, the sequence is well formed, and no turn of the menu throws. *)
Lemma menu_wf cs w :
  forallb valid_input cs = true -> wf_students (students w) = true ->
  outcome (menu cs) w = Ok tt
  /\ wf_students (students (exec (menu cs) w)) = true.
Proof.
  revert w. induction cs as [|c cs IH]; intros w Hcs Hwf; [split; [reflexivity | exact Hwf] |].
  cbn [forallb] in Hcs. apply andb_true_iff in Hcs as [Hc Hcs].
  destruct (dispatch_wf c w Hc Hwf) as [Hok Hwf'].
  unfold exec, outcome in *. cbn [menu]. cbv [mbind M_bind].
  destruct (dispatch c w) as [[[]|e] w1]; [| discriminate Hok].
  apply IH; assumption.
Qed.

(** * The claims *)




(** C2. Round trip: for every record whose roll number is an [int] and
    whose four texts hold no comma and no newline, what [saveToFile] writes
    is read back by [getline] as one line, and [fromString] of that line is
    the record itself, field by field. *)
Theorem C2_roundtrip indet r :
  int_range (rollNo r) -> plain_record r = true ->
  getlines (Student_saveToFile r) = [line_of r]
  /\ fromString indet (line_of r) = Ok r.
Proof.
  intros Hr Hp. split.
  - unfold Student_saveToFile.
    rewrite getlines_cons by (apply line_of_one_line, plain_record_wf; assumption).
    rewrite getlines_nil. reflexivity.
  - apply fromString_line_of; assumption.
Qed.

Lemma C2_witness :
  int_range (rollNo Alice) /\ plain_record Alice = true
  /\ getlines (Student_saveToFile Alice) = [line_of Alice]
  /\ fromString 0 (line_of Alice) = Ok Alice.
Proof.
  assert (Hr : int_range (rollNo Alice)) by (vm_compute; split; discriminate).
  assert (Hp : plain_record Alice = true) by reflexivity.
  split; [exact Hr | split; [exact Hp | exact (C2_roundtrip 0 Alice Hr Hp)]].
Defined.

(** C3. A line with three parts does not load as a record with roll
    number 0: [fromString] returns [Student()] without an error and with
    four empty texts, but the roll number of that record is whatever value
    the uninitialised member holds, here 7. *)
Theorem C3_malformed_line_rollNo_not_zero :
  split (txt "a,b,c") = [txt "a"; txt "b"; txt "c"]
  /\ fromString 7 (txt "a,b,c") = Ok (mkStudent 7 [] [] [] [])
  /\ fromString 7 (txt "a,b,c") <> Ok (mkStudent 0 [] [] [] []).
Proof. split; [reflexivity | split; [reflexivity | discriminate]]. Qed.







(** C6. If the first record with roll number [roll] is [s], at position
    [i], then after [updateStudent roll newName] the first record with that
    roll number is still at position [i], its name is [newName], its roll
    number, department, email and phone are those of [s], every other
    position of the sequence holds what it held, and the file is saved
    (rewritten with the serialization of the sequence when it can be
    opened for writing, left as it was otherwise).
    If no record has roll number [roll], failure is reported and the
    sequence (and the file) are unchanged. *)
Theorem C6_update_name w roll newName :
  let w' := exec (updateStudent roll newName) w in
  (forall i s,
      findByRoll roll (students w) = Some (i, s) ->
      exists s',
        findByRoll roll (students w') = Some (i, s')
        /\ name s' = newName
        /\ rollNo s' = rollNo s /\ department s' = department s
        /\ email s' = email s /\ phone s' = phone s
        /\ length (students w') = length (students w)
        /\ (forall j, j <> i -> students w' !! j = students w !! j)
        /\ students_txt w' = saved (students_txt w) (serialize (students w'))
        /\ cout w' = cout w ++ [EnterRollNoToUpdate; EnterNewName; StudentUpdated])
  /\ (findByRoll roll (students w) = None ->
      students w' = students w
      /\ students_txt w' = students_txt w
      /\ cout w' = cout w ++ [EnterRollNoToUpdate; StudentNotFound]).
Proof.
  intros w'. subst w'. unfold exec. rewrite updateStudent_spec. cbn [snd]. split.
  - intros i s Hfind. rewrite Hfind. cbn [students students_txt cout].
    exists (setName newName s).
    split; [apply findByRoll_insert_setName; assumption |].
    repeat (split; [reflexivity |]).
    split; [apply length_insert |].
    split; [intros j Hj; apply list_lookup_insert_ne; congruence |].
    split; reflexivity.
  - intros Hnone. rewrite Hnone. repeat split.
Qed.

Lemma C6_witness :
  (findByRoll 1 (students two_students) = Some (O, Alice)
   /\ students (exec (updateStudent 1 (txt "Alicia")) two_students)
      = [setName (txt "Alicia") Alice; Bob])
  /\ (findByRoll 9 (students two_students) = None
      /\ students (exec (updateStudent 9 (txt "Alicia")) two_students)
         = students two_students).
Proof.
  assert (Hf : findByRoll 1 (students two_students) = Some (O, Alice)) by reflexivity.
  assert (Hn : findByRoll 9 (students two_students) = None) by reflexivity.
  destruct (C6_update_name two_students 1 (txt "Alicia")) as [H1 _].
  destruct (C6_update_name two_students 9 (txt "Alicia")) as [_ H2].
  destruct (H1 _ _ Hf) as (s' & _).
  split; [split; [exact Hf | reflexivity] | split; [exact Hn | exact (proj1 (H2 Hn))]].
Defined.

(** C7. [searchStudent] scans the sequence in order: it shows the record
    at position [i] when that record has the roll number asked for and no
    record before it has; it reports not-found when no record has it; it
    changes neither the sequence nor the file. In particular, after two
    adds with one roll number that the sequence did not hold, a search
    shows the record added first. *)
Theorem C7_search_first_match w roll :
  (forall i s,
      students w !! i = Some s -> getRollNo s = roll ->
      (forall j y, students w !! j = Some y -> (j < i)%nat -> getRollNo y <> roll) ->
      search_shows roll w s)
  /\ ((forall y, y ∈ students w -> getRollNo y <> roll) ->
      search_reports_not_found roll w)
  /\ (forall n1 d1 e1 p1 n2 d2 e2 p2,
         (forall y, y ∈ students w -> getRollNo y <> roll) ->
         search_shows roll
           (exec (addStudent roll n2 d2 e2 p2) (exec (addStudent roll n1 d1 e1 p1) w))
           (mkStudent roll n1 d1 e1 p1))
  /\ students (exec (searchStudent roll) w) = students w
  /\ students_txt (exec (searchStudent roll) w) = students_txt w.
Proof.
  split; [| split; [| split]].
  - intros i s Hi Hs Hfirst.
    assert (Hfind : findByRoll roll (students w) = Some (i, s))
      by (apply findByRoll_Some; auto).
    unfold search_shows, exec. rewrite searchStudent_spec, Hfind. reflexivity.
  - intros Habsent. apply findByRoll_None in Habsent.
    unfold search_reports_not_found, exec. rewrite searchStudent_spec, Habsent.
    reflexivity.
  - intros n1 d1 e1 p1 n2 d2 e2 p2 Habsent. apply findByRoll_None in Habsent.
    unfold search_shows, exec. rewrite searchStudent_spec, !addStudent_spec.
    cbn [snd students cout]. cbv zeta. cbn [students].
    pose proof (findByRoll_snoc_absent roll (students w) (mkStudent roll n1 d1 e1 p1)
                  Habsent eq_refl) as Hfirst.
    unfold findByRoll in *. rewrite (list_find_app_l _ _ _ _ _ Hfirst). reflexivity.
  - unfold exec. rewrite searchStudent_spec. split; reflexivity.
Qed.

Lemma C7_witness :
  (twins.(students) !! O = Some Alice /\ search_shows 1 twins Alice)
  /\ search_reports_not_found 9 twins
  /\ search_shows 1
       (exec (addStudent 1 (txt "Alan") (txt "EE") (txt "al@x.com") (txt "557"))
          (exec (addStudent 1 (txt "Alice") (txt "CS") (txt "a@x.com") (txt "555"))
             fresh_world))
       Alice.
Proof.
  destruct (C7_search_first_match twins 1) as (H1 & _).
  destruct (C7_search_first_match twins 9) as (_ & H2 & _).
  destruct (C7_search_first_match fresh_world 1) as (_ & _ & H3 & _).
  split; [split; [reflexivity |] | split].
  - apply (H1 O Alice); [reflexivity | reflexivity |]. intros j y _ Hj. lia.
  - apply H2. intros y Hy.
    apply list_elem_of_In in Hy. destruct Hy as [<- | [<- | []]]; discriminate.
  - apply H3. intros y Hy. apply list_elem_of_In in Hy. destruct Hy.
Defined.




(** C9. The read-only operations never write the backing file: after any
    number of [viewStudents] and [searchStudent], in any world, its content
    (and the in-memory sequence) is unchanged; and loading at construction,
    whether it completes or throws, leaves the content of the file as it
    was. *)
Theorem C9_reads_do_not_write ops indet w :
  students_txt (exec (run_reads ops) w) = students_txt w
  /\ students (exec (run_reads ops) w) = students w
  /\ outcome (run_reads ops) w = Ok tt
  /\ students_txt (exec (StudentSystem_new indet) w) = students_txt w.
Proof.
  split; [| split; [| split]].
  - revert w. induction ops as [|[|roll] ops IH]; intros w; [reflexivity | |];
      unfold exec in *; cbn [run_reads run_read]; cbv [mbind M_bind].
    + rewrite viewStudents_spec. rewrite IH. reflexivity.
    + rewrite searchStudent_spec. rewrite IH. reflexivity.
  - revert w. induction ops as [|[|roll] ops IH]; intros w; [reflexivity | |];
      unfold exec in *; cbn [run_reads run_read]; cbv [mbind M_bind].
    + rewrite viewStudents_spec. rewrite IH. reflexivity.
    + rewrite searchStudent_spec. rewrite IH. reflexivity.
  - revert w. induction ops as [|[|roll] ops IH]; intros w; [reflexivity | |];
      unfold outcome in *; cbn [run_reads run_read]; cbv [mbind M_bind].
    + rewrite viewStudents_spec. apply IH.
    + rewrite searchStudent_spec. apply IH.
  - unfold StudentSystem_new, loadFromFile, exec. run.
    apply (load_loop_frame indet _ O (mkWorld [] (students_txt w) (cout w))).
Qed.

(** C10. On a line that splits into exactly five parts, [fromString]
    converts the first part with [stoi] and copies the other four, and
    nothing guards the conversion: when the first part holds no digit the
    call throws [invalid_argument] instead of returning a record, and such
    a line exists. *)
Theorem C10_unguarded_conversion :
  (forall indet line p0 p1 p2 p3 p4,
      split line = [p0; p1; p2; p3; p4] ->
      fromString indet line
      = match stoi p0 with
        | Ok r => Ok (mkStudent r p1 p2 p3 p4)
        | Throw e => Throw e
        end
      /\ (existsb isdigit p0 = false ->
          fromString indet line = Throw invalid_argument))
  /\ (exists line p0 p1 p2 p3 p4,
        split line = [p0; p1; p2; p3; p4]
        /\ existsb isdigit p0 = false
        /\ forall indet, fromString indet line = Throw invalid_argument).
Proof.
  assert (H : forall indet line p0 p1 p2 p3 p4,
      split line = [p0; p1; p2; p3; p4] ->
      fromString indet line
      = match stoi p0 with
        | Ok r => Ok (mkStudent r p1 p2 p3 p4)
        | Throw e => Throw e
        end
      /\ (existsb isdigit p0 = false ->
          fromString indet line = Throw invalid_argument)).
  { intros indet line p0 p1 p2 p3 p4 Hsplit.
    rewrite (fromString_five _ _ _ _ _ _ _ Hsplit).
    split; [reflexivity |]. intros Hno. rewrite (stoi_no_digit _ Hno). reflexivity. }
  split; [exact H |].
  exists (txt "x,a,b,c,d"), (txt "x"), (txt "a"), (txt "b"), (txt "c"), (txt "d").
  split; [reflexivity | split; [reflexivity |]].
  intros indet. reflexivity.
Qed.

Lemma C10_witness :
  split (txt "x,a,b,c,d") = [txt "x"; txt "a"; txt "b"; txt "c"; txt "d"]
  /\ existsb isdigit (txt "x") = false
  /\ fromString 0 (txt "x,a,b,c,d") = Throw invalid_argument.
Proof.
  assert (Hs : split (txt "x,a,b,c,d") = [txt "x"; txt "a"; txt "b"; txt "c"; txt "d"])
    by reflexivity.
  assert (Hd : existsb isdigit (txt "x") = false) by reflexivity.
  split; [exact Hs | split; [exact Hd |]].
  exact (proj2 (proj1 C10_unguarded_conversion 0 _ _ _ _ _ _ Hs) Hd).
Defined.

(** * Further properties of the code *)

(** ** The parts of a line *)

Lemma count_char_app c a b : count_char c (a ++ b) = (count_char c a + count_char c b)%nat.
Proof. induction a as [|x a IH]; cbn [count_char app]; [reflexivity | rewrite IH; lia]. Qed.

Lemma count_char_none c t : has_char c t = false -> count_char c t = O.
Proof.
  unfold has_char. induction t as [|x t IH]; cbn [existsb count_char]; [reflexivity |].
  intros [-> Ht]%orb_false_iff. rewrite (IH Ht). reflexivity.
Qed.

Lemma count_char_some c t : has_char c t = true -> (1 <= count_char c t)%nat.
Proof.
  unfold has_char. induction t as [|x t IH]; cbn [existsb count_char]; [discriminate |].
  destruct (Ascii.eqb c x); [lia |]. cbn [orb]. intros H. apply IH in H. lia.
Qed.

Lemma split_facts line :
  join (split line) = line
  /\ length (split line) = S (count_char COMMA line)
  /\ Forall (fun p => has_char COMMA p = false) (split line).
Proof.
  remember (S (length line)) as n eqn:Hn.
  assert (Hlen : (length line < n)%nat) by lia. clear Hn.
  revert line Hlen. induction n as [|n IH]; intros line Hlen; [lia |].
  destruct (find COMMA line) as [pos|] eqn:Hfind.
  - destruct (find_Some _ _ _ Hfind) as (Heq & Hno & Hpos).
    revert Heq Hno. generalize (take pos line) (drop (S pos) line).
    intros a r -> Hno.
    destruct (IH r) as (Hjoin & Hcount & Hparts).
    { rewrite length_app in Hlen. cbn in Hlen. lia. }
    rewrite split_cons by assumption. split; [| split].
    + cbn [join]. destruct (split r) as [|p ps] eqn:E; [discriminate Hcount |].
      rewrite Hjoin. reflexivity.
    + cbn [length]. rewrite Hcount, count_char_app, (count_char_none _ _ Hno).
      cbn [count_char]. rewrite Ascii.eqb_refl. lia.
    + constructor; assumption.
  - apply find_None in Hfind. rewrite split_plain by assumption.
    rewrite (count_char_none _ _ Hfind). repeat split.
    constructor; [assumption | constructor].
Qed.

(** The loop of [fromString] cuts the line at every comma and loses
    nothing: the parts joined by commas are the line again, there is one
    part more than there are commas, and no part holds a comma. *)
Theorem split_join_count line :
  join (split line) = line
  /\ length (split line) = S (count_char COMMA line)
  /\ Forall (fun p => has_char COMMA p = false) (split line).
Proof. apply split_facts. Qed.

Lemma fromString_not_four_commas indet line :
  count_char COMMA line <> 4%nat ->
  fromString indet line = Ok (Student_default indet).
Proof.
  intros H. apply fromString_malformed.
  destruct (split_facts line) as (_ & -> & _). lia.
Qed.

(** A line that does not hold exactly four commas is never an error:
    [fromString] returns the default-constructed record, with four empty
    texts and the roll number left as its storage happened to be. *)
Theorem fromString_comma_count indet line :
  count_char COMMA line <> 4%nat ->
  fromString indet line = Ok (Student_default indet)
  /\ name (Student_default indet) = [] /\ department (Student_default indet) = []
  /\ email (Student_default indet) = [] /\ phone (Student_default indet) = []
  /\ rollNo (Student_default indet) = indet.
Proof.
  intros H. rewrite (fromString_not_four_commas _ _ H). repeat split.
Qed.

Lemma fromString_comma_count_witness :
  count_char COMMA (txt "1,Alice,CS") <> 4%nat
  /\ fromString 5 (txt "1,Alice,CS") = Ok (Student_default 5).
Proof.
  assert (H : count_char COMMA (txt "1,Alice,CS") <> 4%nat) by (vm_compute; lia).
  split; [exact H | exact (proj1 (fromString_comma_count 5 _ H))].
Defined.

Lemma to_dec_no_comma n : count_char COMMA (to_dec n) = O.
Proof. apply count_char_none, to_dec_plain. Qed.

Lemma line_of_commas s :
  count_char COMMA (line_of s)
  = (4 + count_char COMMA (name s) + count_char COMMA (department s)
     + count_char COMMA (email s) + count_char COMMA (phone s))%nat.
Proof.
  unfold line_of.
  repeat (rewrite count_char_app; cbn [count_char]; rewrite Ascii.eqb_refl).
  rewrite to_dec_no_comma. lia.
Qed.

Lemma fromString_comma_in_field indet s :
  has_char COMMA (name s) || has_char COMMA (department s)
  || has_char COMMA (email s) || has_char COMMA (phone s) = true ->
  fromString indet (line_of s) = Ok (Student_default indet).
Proof.
  intros H. apply fromString_not_four_commas. rewrite line_of_commas.
  repeat (apply orb_true_iff in H as [H | H]);
    try (apply count_char_some in H; lia).
Qed.

(** Data loss on a comma: the line written for a record with a comma in
    its name, department, email or phone is read back as the
    default-constructed record, without any error. *)
Theorem comma_in_field_reads_back_default indet s :
  has_char COMMA (name s) || has_char COMMA (department s)
  || has_char COMMA (email s) || has_char COMMA (phone s) = true ->
  fromString indet (line_of s) = Ok (Student_default indet).
Proof. apply fromString_comma_in_field. Qed.

Lemma comma_in_field_reads_back_default_witness :
  has_char COMMA (name Smith) || has_char COMMA (department Smith)
  || has_char COMMA (email Smith) || has_char COMMA (phone Smith) = true
  /\ fromString 0 (line_of Smith) = Ok (Student_default 0).
Proof.
  assert (H : has_char COMMA (name Smith) || has_char COMMA (department Smith)
              || has_char COMMA (email Smith) || has_char COMMA (phone Smith) = true)
    by reflexivity.
  split; [exact H | exact (comma_in_field_reads_back_default 0 Smith H)].
Defined.

(** ** What [stoi] lets through *)

Lemma skip_space_app sp rest :
  forallb isspace sp = true -> skip_space (sp ++ rest) = skip_space rest.
Proof.
  induction sp as [|c sp IH]; cbn [forallb app skip_space]; [reflexivity |].
  intros [-> Hsp]%andb_true_iff. apply IH, Hsp.
Qed.

Lemma isspace_not_comma c : isspace c = true -> Ascii.eqb COMMA c = false.
Proof.
  destruct c as [[] [] [] [] [] [] [] []]; vm_compute; intros H;
    solve [discriminate H | reflexivity].
Qed.

Lemma read_digits_app ds rest acc :
  forallb isdigit ds = true ->
  read_digits acc (ds ++ rest) = read_digits (read_digits acc ds) rest.
Proof.
  revert acc. induction ds as [|c ds IH]; intros acc; cbn [forallb app read_digits];
    [reflexivity |].
  intros [-> Hds]%andb_true_iff. apply IH, Hds.
Qed.

Lemma read_digits_stop acc junk :
  starts_without_digit junk = true -> read_digits acc junk = acc.
Proof.
  destruct junk as [|c junk]; cbn [starts_without_digit read_digits]; [reflexivity |].
  intros ->%negb_true_iff. reflexivity.
Qed.

(** [stoi] on a decimal number between white space and other text. *)
Lemma stoi_dec_between sp n junk :
  forallb isspace sp = true -> starts_without_digit junk = true ->
  stoi (sp ++ to_dec n ++ junk)
  = if in_int_range n then Ok n else Throw out_of_range.
Proof.
  intros Hsp Hjunk. unfold stoi. rewrite (skip_space_app _ _ Hsp). unfold to_dec.
  destruct (Z.ltb_spec n 0) as [Hneg | Hpos].
  - destruct (dec_digits_spec (Z.to_nat (Z.log2 (- n))) (- n)) as (Hall & Hval & Hne).
    { split; [lia | apply log2_fuel; lia]. }
    destruct (dec_digits _ (- n)) as [|c ds] eqn:E; [contradiction |].
    assert (Hc : isdigit c = true) by (cbn [forallb] in Hall; apply andb_true_iff in Hall; tauto).
    cbn [app skip_space]. change (isspace "-") with false. cbv iota.
    change (Ascii.eqb "-" "-") with true. cbv iota beta. rewrite Hc.
    change (c :: ds ++ junk) with ((c :: ds) ++ junk).
    rewrite (read_digits_app _ _ _ Hall), Hval, (read_digits_stop _ _ Hjunk).
    replace (- - n) with n by lia. reflexivity.
  - destruct (dec_digits_spec (Z.to_nat (Z.log2 n)) n) as (Hall & Hval & Hne).
    { split; [lia | apply log2_fuel; lia]. }
    destruct (dec_digits _ n) as [|c ds] eqn:E; [contradiction |].
    assert (Hc : isdigit c = true) by (cbn [forallb] in Hall; apply andb_true_iff in Hall; tauto).
    destruct (isdigit_plain c Hc) as (Hs & Hm & Hp & _).
    cbn [app skip_space]. rewrite Hs, Hm, Hp. cbv iota beta. rewrite Hc.
    change (c :: ds ++ junk) with ((c :: ds) ++ junk).
    rewrite (read_digits_app _ _ _ Hall), Hval, (read_digits_stop _ _ Hjunk).
    reflexivity.
Qed.

Lemma split_five p0 a b c d :
  has_char COMMA p0 = false -> has_char COMMA a = false -> has_char COMMA b = false ->
  has_char COMMA c = false -> has_char COMMA d = false ->
  split (p0 ++ COMMA :: a ++ COMMA :: b ++ COMMA :: c ++ COMMA :: d) = [p0; a; b; c; d].
Proof.
  intros H0 Ha Hb Hc Hd. rewrite !split_cons, split_plain by assumption. reflexivity.
Qed.

(** [fromString] is lenient on the first part: white space before the
    number and any text after it that does not start with a digit are
    dropped silently, so that lines other than the one [saveToFile] writes
    load as the same record. *)
Theorem fromString_lenient_roll indet sp n junk a b c d :
  forallb isspace sp = true ->
  starts_without_digit junk = true -> has_char COMMA junk = false ->
  int_range n ->
  has_char COMMA a = false -> has_char COMMA b = false ->
  has_char COMMA c = false -> has_char COMMA d = false ->
  fromString indet
    ((sp ++ to_dec n ++ junk) ++ COMMA :: a ++ COMMA :: b ++ COMMA :: c ++ COMMA :: d)
  = Ok (mkStudent n a b c d).
Proof.
  intros Hsp Hjunk Hjc Hn Ha Hb Hc Hd.
  assert (H0 : has_char COMMA (sp ++ to_dec n ++ junk) = false).
  { rewrite !has_char_app, Hjc. destruct (to_dec_plain n) as [-> _].
    rewrite !orb_false_r. clear -Hsp. unfold has_char.
    induction sp as [|x sp IH]; cbn [existsb forallb] in *; [reflexivity |].
    apply andb_true_iff in Hsp as [Hx Hsp].
    rewrite (isspace_not_comma _ Hx), (IH Hsp). reflexivity. }
  rewrite (fromString_five _ _ _ _ _ _ _ (split_five _ _ _ _ _ H0 Ha Hb Hc Hd)).
  rewrite (stoi_dec_between _ _ _ Hsp Hjunk).
  assert (Hin : in_int_range n = true).
  { unfold in_int_range, int_range in *. apply andb_true_iff.
    split; apply Z.leb_le; lia. }
  rewrite Hin. reflexivity.
Qed.

Lemma fromString_lenient_roll_witness :
  fromString 0 (txt "  12abc,Ann,CS,a@x.com,555")
  = Ok (mkStudent 12 (txt "Ann") (txt "CS") (txt "a@x.com") (txt "555")).
Proof.
  apply (fromString_lenient_roll 0 (txt "  ") 12 (txt "abc")
           (txt "Ann") (txt "CS") (txt "a@x.com") (txt "555"));
    try reflexivity.
  vm_compute. split; discriminate.
Defined.

(** A first part that is a number outside the range of [int] makes
    [fromString] throw [out_of_range]. *)
Theorem fromString_out_of_range indet n a b c d :
  ~ int_range n ->
  has_char COMMA a = false -> has_char COMMA b = false ->
  has_char COMMA c = false -> has_char COMMA d = false ->
  fromString indet (to_dec n ++ COMMA :: a ++ COMMA :: b ++ COMMA :: c ++ COMMA :: d)
  = Throw out_of_range.
Proof.
  intros Hn Ha Hb Hc Hd. destruct (to_dec_plain n) as [H0 _].
  rewrite (fromString_five _ _ _ _ _ _ _ (split_five _ _ _ _ _ H0 Ha Hb Hc Hd)).
  pose proof (stoi_dec_between [] n [] eq_refl eq_refl) as Hs.
  cbn [app] in Hs. rewrite app_nil_r in Hs. rewrite Hs.
  destruct (in_int_range n) eqn:E; [| reflexivity].
  exfalso. apply Hn. unfold in_int_range in E. apply andb_true_iff in E as [H1 H2].
  split; apply Z.leb_le; assumption.
Qed.

Lemma fromString_out_of_range_witness :
  ~ int_range 2147483648
  /\ fromString 0 (txt "2147483648,Ann,CS,a@x.com,555") = Throw out_of_range.
Proof.
  assert (Hn : ~ int_range 2147483648) by (vm_compute; intros [_ H]; apply H; reflexivity).
  split; [exact Hn |].
  apply (fromString_out_of_range 0 2147483648 (txt "Ann") (txt "CS") (txt "a@x.com")
           (txt "555") Hn); reflexivity.
Defined.

(** ** Saving, then loading *)

Lemma fromString_wf_reload indet s :
  wf_student s = true ->
  fromString indet (line_of s)
  = Ok (if plain_record s then s else Student_default indet).
Proof.
  intros Hwf. pose proof Hwf as Hwf'. unfold wf_student, one_line in Hwf'.
  rewrite !andb_true_iff, !negb_true_iff in Hwf'.
  destruct Hwf' as ((((Hr & Hn) & Hd) & He) & Hp).
  assert (Hint : int_range (rollNo s)).
  { unfold in_int_range in Hr. apply andb_true_iff in Hr as [H1 H2].
    split; apply Z.leb_le; assumption. }
  destruct (plain_record s) eqn:Hplain.
  - apply fromString_line_of; assumption.
  - apply fromString_comma_in_field.
    revert Hplain. unfold plain_record, plain_field. rewrite Hn, Hd, He, Hp.
    cbn [negb]. rewrite !andb_true_r.
    destruct (has_char COMMA (name s)), (has_char COMMA (department s)),
      (has_char COMMA (email s)), (has_char COMMA (phone s)); cbn;
      solve [reflexivity | discriminate].
Qed.

Lemma load_lines_reloaded indet l k w :
  wf_students l = true ->
  load_loop indet k (map line_of l) w
  = (Ok tt, mkWorld (students w ++ reloaded indet k l) (students_txt w) (cout w)).
Proof.
  revert k w. induction l as [|s l IH]; intros k [st f c]; cbn [wf_students forallb].
  - intros _. cbn [map load_loop reloaded]. run. rewrite app_nil_r. reflexivity.
  - intros [Hs Hl]%andb_true_iff.
    cbn [map load_loop reloaded]. rewrite line_of_not_empty. cbn [negb]. run.
    rewrite (fromString_wf_reload _ _ Hs), (IH (S k) _ Hl).
    cbn [students students_txt cout]. rewrite <- app_assoc. reflexivity.
Qed.

Lemma reloaded_length indet k l : length (reloaded indet k l) = length l.
Proof.
  revert k. induction l as [|s l IH]; intros k; cbn [reloaded length];
    [reflexivity | rewrite IH; reflexivity].
Qed.

Lemma reloaded_plain indet k l : forallb plain_record l = true -> reloaded indet k l = l.
Proof.
  revert k. induction l as [|s l IH]; intros k; cbn [reloaded forallb]; [reflexivity |].
  intros [-> Hl]%andb_true_iff. rewrite (IH _ Hl). reflexivity.
Qed.

Lemma StudentSystem_new_serialized indet l w :
  wf_students l = true -> content (students_txt w) = Some (serialize l) ->
  StudentSystem_new indet w
  = (Ok tt, mkWorld (reloaded indet O l) (students_txt w) (cout w)).
Proof.
  intros Hl Hfile. destruct w as [st [ct wr] c].
  cbn [students_txt content] in Hfile. subst ct.
  unfold StudentSystem_new, loadFromFile. run.
  rewrite <- (app_nil_r (serialize l)) at 1.
  rewrite (getlines_serialize _ _ Hl), getlines_nil, app_nil_r.
  rewrite (load_lines_reloaded _ _ _ _ Hl). reflexivity.
Qed.

(** Save, then load. A process started on the file that holds the
    serialization of a sequence of records (roll numbers in the range of
    [int], texts without newline) loads without error a sequence of the
    same length: position by position, the record itself when none of its
    texts holds a comma, and a default-constructed record otherwise. *)
Theorem restart_reloads w indet :
  in_sync w -> wf_students (students w) = true ->
  outcome (StudentSystem_new indet) (restart w) = Ok tt
  /\ students (exec (StudentSystem_new indet) (restart w))
     = reloaded indet O (students w)
  /\ length (students (exec (StudentSystem_new indet) (restart w)))
     = length (students w)
  /\ students_txt (exec (StudentSystem_new indet) (restart w)) = students_txt w.
Proof.
  intros Hsync Hwf. unfold exec, outcome.
  rewrite (StudentSystem_new_serialized indet (students w) (restart w) Hwf Hsync).
  cbn [fst snd students students_txt restart]. rewrite reloaded_length.
  repeat split.
Qed.

Lemma restart_reloads_witness :
  in_sync (world_of [Alice; Smith]) /\ wf_students [Alice; Smith] = true
  /\ students (exec (StudentSystem_new (fun _ => 7)) (restart (world_of [Alice; Smith])))
     = [Alice; Student_default 7].
Proof.
  assert (Hs : in_sync (world_of [Alice; Smith])) by reflexivity.
  assert (Hw : wf_students (students (world_of [Alice; Smith])) = true) by reflexivity.
  split; [exact Hs | split; [exact Hw |]].
  exact (proj1 (proj2 (restart_reloads _ (fun _ => 7) Hs Hw))).
Defined.

(** Persistence: when no text of any record holds a comma, the process
    started on the saved file holds exactly the sequence that was saved. *)
Theorem restart_restores_plain_store w indet :
  in_sync w -> wf_students (students w) = true ->
  forallb plain_record (students w) = true ->
  StudentSystem_new indet (restart w) = (Ok tt, mkWorld (students w) (students_txt w) []).
Proof.
  intros Hsync Hwf Hplain.
  rewrite (StudentSystem_new_serialized indet (students w) (restart w) Hwf Hsync).
  rewrite (reloaded_plain _ _ _ Hplain). reflexivity.
Qed.

Lemma restart_restores_plain_store_witness :
  in_sync two_students /\ wf_students (students two_students) = true
  /\ forallb plain_record (students two_students) = true
  /\ students (exec (StudentSystem_new (fun _ => 0)) (restart two_students))
     = [Alice; Bob].
Proof.
  assert (Hs : in_sync two_students) by reflexivity.
  assert (Hw : wf_students (students two_students) = true) by reflexivity.
  assert (Hp : forallb plain_record (students two_students) = true) by reflexivity.
  split; [exact Hs | split; [exact Hw | split; [exact Hp |]]].
  unfold exec.
  rewrite (restart_restores_plain_store two_students (fun _ => 0) Hs Hw Hp).
  reflexivity.
Defined.

(** ** Loading other files *)

Lemma StudentSystem_new_frame indet w :
  students_txt (exec (StudentSystem_new indet) w) = students_txt w.
Proof.
  unfold StudentSystem_new, loadFromFile, exec. run.
  apply (load_loop_frame indet _ O (mkWorld [] (students_txt w) (cout w))).
Qed.

Lemma getlines_blank n : getlines (replicate n LF) = replicate n [].
Proof.
  induction n as [|n IH]; [reflexivity |].
  cbn [replicate]. change (LF :: replicate n LF) with ([] ++ LF :: replicate n LF).
  rewrite (getlines_cons [] (replicate n LF) eq_refl), IH. reflexivity.
Qed.

Lemma load_loop_blank indet n k w : load_loop indet k (replicate n []) w = (Ok tt, w).
Proof.
  revert k w. induction n as [|n IH]; intros k w; [reflexivity |].
  cbn [replicate load_loop is_empty negb]. run. apply IH.
Qed.

(** A missing file, an empty file and a file of empty lines all load as
    the empty sequence, without error and without creating the file. *)
Theorem load_missing_or_blank indet w n :
  content (students_txt w) = None \/ content (students_txt w) = Some (replicate n LF) ->
  StudentSystem_new indet w = (Ok tt, mkWorld [] (students_txt w) (cout w)).
Proof.
  destruct w as [st [ct wr] c]. cbn [students_txt cout content].
  intros [-> | ->]; unfold StudentSystem_new, loadFromFile; run.
  - reflexivity.
  - rewrite getlines_blank. apply load_loop_blank.
Qed.

Lemma load_missing_or_blank_witness :
  StudentSystem_new (fun _ => 0) (mkWorld [Alice] no_file [])
  = (Ok tt, mkWorld [] no_file [])
  /\ StudentSystem_new (fun _ => 0) (mkWorld [Alice] (file_with [LF; LF]) [])
     = (Ok tt, mkWorld [] (file_with [LF; LF]) []).
Proof.
  split.
  - exact (load_missing_or_blank (fun _ => 0) (mkWorld [Alice] no_file []) O
             (or_introl eq_refl)).
  - exact (load_missing_or_blank (fun _ => 0) (mkWorld [Alice] (file_with [LF; LF]) []) 2
             (or_intror eq_refl)).
Defined.

(** Loading is not guarded: a line with five parts whose first part holds
    no digit, anywhere after well-formed lines, makes the constructor
    throw [invalid_argument]; the file is left as it was. *)
Theorem load_throws_on_digitless_roll indet l line rest p0 p1 p2 p3 p4 w :
  wf_students l = true -> has_char LF line = false ->
  split line = [p0; p1; p2; p3; p4] -> existsb isdigit p0 = false ->
  content (students_txt w) = Some (serialize l ++ line ++ LF :: rest) ->
  outcome (StudentSystem_new indet) w = Throw invalid_argument
  /\ students_txt (exec (StudentSystem_new indet) w) = students_txt w.
Proof.
  intros Hl Hline Hsplit Hp0 Hfile. split.
  2:{ apply StudentSystem_new_frame. }
  destruct w as [st [ct wr] c]. cbn [students_txt content] in Hfile. subst ct.
  unfold outcome, StudentSystem_new, loadFromFile. run.
  rewrite (getlines_serialize _ _ Hl), (getlines_cons _ _ Hline).
  rewrite load_loop_app, (load_lines_reloaded _ _ _ _ Hl).
  cbn [load_loop].
  assert (Hne : is_empty line = false).
  { destruct line; [discriminate Hsplit | reflexivity]. }
  rewrite Hne. cbn [negb]. run.
  rewrite (fromString_five _ _ _ _ _ _ _ Hsplit), (stoi_no_digit _ Hp0). reflexivity.
Qed.

Lemma load_throws_on_digitless_roll_witness :
  wf_students [Alice] = true
  /\ split (txt "x,a,b,c,d") = [txt "x"; txt "a"; txt "b"; txt "c"; txt "d"]
  /\ outcome (StudentSystem_new (fun _ => 0))
       (mkWorld [] (file_with (serialize [Alice] ++ txt "x,a,b,c,d" ++ LF :: [])) [])
     = Throw invalid_argument.
Proof.
  assert (Hw : wf_students [Alice] = true) by reflexivity.
  assert (Hs : split (txt "x,a,b,c,d") = [txt "x"; txt "a"; txt "b"; txt "c"; txt "d"])
    by reflexivity.
  split; [exact Hw | split; [exact Hs |]].
  exact (proj1 (load_throws_on_digitless_roll (fun _ => 0) [Alice] (txt "x,a,b,c,d") []
                  _ _ _ _ _
                  (mkWorld [] (file_with (serialize [Alice] ++ txt "x,a,b,c,d" ++ [LF])) [])
                  Hw eq_refl Hs eq_refl eq_refl)).
Defined.

(** ** How the operations compose *)



(** Two updates of one roll number: the second name wins, and the
    sequence and the file are as if only the second update had been made. *)
Theorem update_twice_last_wins w roll n1 n2 :
  students (exec (updateStudent roll n2) (exec (updateStudent roll n1) w))
  = students (exec (updateStudent roll n2) w)
  /\ students_txt (exec (updateStudent roll n2) (exec (updateStudent roll n1) w))
     = students_txt (exec (updateStudent roll n2) w).
Proof.
  unfold exec. rewrite !updateStudent_spec. cbn [snd].
  destruct (findByRoll roll (students w)) as [[i s]|] eqn:Hfind.
  - cbv zeta. cbn [students].
    rewrite (findByRoll_insert_setName _ n1 _ _ _ Hfind).
    cbn [students students_txt]. rewrite list_insert_insert_eq, saved_twice.
    split; reflexivity.
  - cbn [students]. rewrite Hfind. split; reflexivity.
Qed.

(** [updateStudent] touches names only: the roll numbers, departments,
    emails and phones of the sequence, in order, are what they were,
    whether or not the roll number is found. *)
Theorem update_keeps_other_columns w roll newName :
  let w' := exec (updateStudent roll newName) w in
  rollNo <$> students w' = rollNo <$> students w
  /\ department <$> students w' = department <$> students w
  /\ email <$> students w' = email <$> students w
  /\ phone <$> students w' = phone <$> students w.
Proof.
  intros w'. subst w'. unfold exec. rewrite updateStudent_spec. cbn [snd].
  destruct (findByRoll roll (students w)) as [[i s]|] eqn:Hfind; [| repeat split].
  apply findByRoll_Some in Hfind as (Hi & _). cbv zeta. cbn [students].
  rewrite !list_fmap_insert. cbn [setName rollNo department email phone].
  repeat split; apply list_insert_id; rewrite list_lookup_fmap, Hi; reflexivity.
Qed.

Lemma search_answer_spec roll w :
  search_answer roll w
  = Some match findByRoll roll (students w) with
         | Some (_, s) => Display s
         | None => StudentNotFound
         end.
Proof.
  unfold search_answer, exec. rewrite searchStudent_spec. cbn [snd cout].
  rewrite (cons_middle EnterRollNoToSearch), app_assoc. apply last_snoc.
Qed.

Lemma snd_prod_map_S (o : option (nat * Student)) :
  snd <$> (prod_map S id <$> o) = snd <$> o.
Proof. destruct o as [[i s]|]; reflexivity. Qed.

Lemma findByRoll_other_snoc roll' l r :
  getRollNo r <> roll' -> findByRoll roll' (l ++ [r]) = findByRoll roll' l.
Proof.
  intros Hr. induction l as [|x l IH]; cbn [app]; rewrite !findByRoll_cons.
  - apply Z.eqb_neq in Hr. rewrite Hr. reflexivity.
  - destruct (getRollNo x =? roll'); [reflexivity |]. rewrite IH. reflexivity.
Qed.

Lemma findByRoll_other_insert roll' l i s s' :
  l !! i = Some s -> getRollNo s <> roll' -> getRollNo s' <> roll' ->
  snd <$> findByRoll roll' (<[i := s']> l) = snd <$> findByRoll roll' l.
Proof.
  revert i. induction l as [|x l IH]; intros i Hi Hs Hs'; [discriminate Hi |].
  destruct i as [|i]; cbn [insert list_insert]; rewrite !findByRoll_cons.
  - injection Hi as ->. apply Z.eqb_neq in Hs, Hs'. rewrite Hs, Hs'. reflexivity.
  - destruct (getRollNo x =? roll'); [reflexivity |].
    rewrite !snd_prod_map_S. apply IH; assumption.
Qed.

Lemma findByRoll_other_delete roll' l i s :
  l !! i = Some s -> getRollNo s <> roll' ->
  snd <$> findByRoll roll' (delete i l) = snd <$> findByRoll roll' l.
Proof.
  revert i. induction l as [|x l IH]; intros i Hi Hs; [discriminate Hi |].
  destruct i as [|i]; cbn [delete list_delete].
  - injection Hi as ->. rewrite findByRoll_cons. apply Z.eqb_neq in Hs. rewrite Hs.
    rewrite snd_prod_map_S. reflexivity.
  - rewrite !findByRoll_cons. destruct (getRollNo x =? roll'); [reflexivity |].
    rewrite !snd_prod_map_S. apply IH; assumption.
Qed.

(** An add, an update or a delete under one roll number never changes
    the answer of a search for another roll number. *)
Theorem other_rolls_unaffected w roll roll' n d e p newName :
  roll' <> roll ->
  search_answer roll' (exec (addStudent roll n d e p) w) = search_answer roll' w
  /\ search_answer roll' (exec (updateStudent roll newName) w) = search_answer roll' w
  /\ search_answer roll' (exec (deleteStudent roll) w) = search_answer roll' w.
Proof.
  intros Hne. rewrite !search_answer_spec. unfold exec.
  rewrite addStudent_spec, updateStudent_spec, deleteStudent_spec. cbn [snd].
  assert (Hanswer : forall l1 l2 : list Student,
             snd <$> findByRoll roll' l1 = snd <$> findByRoll roll' l2 ->
             Some match findByRoll roll' l1 with
                  | Some (_, s) => Display s | None => StudentNotFound end
             = Some match findByRoll roll' l2 with
                    | Some (_, s) => Display s | None => StudentNotFound end).
  { intros l1 l2. destruct (findByRoll roll' l1) as [[i1 s1]|],
      (findByRoll roll' l2) as [[i2 s2]|]; cbn; congruence. }
  split; [| split].
  - cbv zeta. cbn [students]. rewrite findByRoll_other_snoc; [reflexivity |].
    unfold getRollNo. cbn [rollNo]. congruence.
  - destruct (findByRoll roll (students w)) as [[i s]|] eqn:Hfind; [| reflexivity].
    apply findByRoll_Some in Hfind as (Hi & Hs & _). cbv zeta. cbn [students].
    apply Hanswer, (findByRoll_other_insert _ _ _ s); [assumption | |];
      unfold getRollNo in *; cbn [setName rollNo]; congruence.
  - destruct (findByRoll roll (students w)) as [[i s]|] eqn:Hfind; [| reflexivity].
    apply findByRoll_Some in Hfind as (Hi & Hs & _). cbv zeta. cbn [students].
    apply Hanswer, (findByRoll_other_delete _ _ _ s); [assumption |]. congruence.
Qed.

Lemma other_rolls_unaffected_witness :
  search_answer 2 (exec (deleteStudent 1) two_students) = search_answer 2 two_students
  /\ search_answer 2 two_students = Some (Display Bob).
Proof.
  assert (Hne : 2 <> 1) by discriminate.
  split; [| reflexivity].
  exact (proj2 (proj2 (other_rolls_unaffected two_students 1 2 [] [] [] [] [] Hne))).
Defined.

(** [viewStudents] prints the one message "No records found!" on an empty
    sequence and otherwise every record once, in sequence order; after an
    add it therefore shows the old records and then the new one. *)
Theorem view_lists_all w roll n d e p :
  cout (exec viewStudents w)
  = cout w ++ (if is_empty (students w) then [NoRecordsFound]
               else map Display (students w))
  /\ cout (exec viewStudents (exec (addStudent roll n d e p) w))
     = cout (exec (addStudent roll n d e p) w)
       ++ map Display (students w) ++ [Display (mkStudent roll n d e p)].
Proof.
  unfold exec. rewrite !viewStudents_spec, addStudent_spec. cbn [snd students cout].
  split.
  - destruct (students w); reflexivity.
  - cbv zeta. cbn [students cout].
    destruct (students w ++ [mkStudent roll n d e p]) as [|x l] eqn:E.
    + destruct (students w); discriminate E.
    + rewrite <- E, map_app. reflexivity.
Qed.

(** ** Invariants of a running program *)

Lemma dispatch_ok c w : dispatch c w = (Ok tt, exec (dispatch c) w).
Proof.
  unfold exec.
  destruct c as [roll n d e p | | roll | roll newName | roll]; cbn [dispatch].
  - rewrite addStudent_spec. reflexivity.
  - rewrite viewStudents_spec. reflexivity.
  - rewrite searchStudent_spec. reflexivity.
  - rewrite updateStudent_spec. reflexivity.
  - rewrite deleteStudent_spec. reflexivity.
Qed.

Lemma menu_cons c cs w : menu (c :: cs) w = menu cs (exec (dispatch c) w).
Proof. cbn [menu]. cbv [mbind M_bind]. rewrite dispatch_ok. reflexivity. Qed.













(** Whatever file the process starts on and whatever is typed at the
    menu, every record it holds has a roll number in the range of [int]
    and texts without newline, also when the loading was cut short by an
    exception. *)
Theorem running_program_wf indet w0 cs :
  (forall i, in_int_range (indet i) = true) ->
  forallb valid_input cs = true ->
  let w1 := exec (StudentSystem_new indet) w0 in
  wf_students (students w1) = true
  /\ wf_students (students (exec (menu cs) w1)) = true.
Proof.
  intros Hindet Hcs w1.
  assert (Hw1 : wf_students (students w1) = true)
    by apply (StudentSystem_new_wf indet w0 Hindet).
  split; [exact Hw1 | exact (proj2 (menu_wf cs w1 Hcs Hw1))].
Qed.

Lemma running_program_wf_witness :
  wf_students
    (students
       (exec (menu [CmdAdd 4 (txt "Dee") (txt "CS") (txt "d@x.com") (txt "559");
                    CmdDelete 1])
          (exec (StudentSystem_new (fun _ => 0))
             (mkWorld [] (file_with (txt "1,Alice,CS,a@x.com,555" ++ LF :: txt "oops")) []))))
  = true.
Proof.
  refine (proj2 (running_program_wf (fun _ => 0) _ _ _ _)).
  - intros i. reflexivity.
  - reflexivity.
Defined.

(** ** Reading [cin] *)

(** The shape of the decimal text of a number. *)
Lemma to_dec_shape n :
  exists c ds,
    forallb isdigit (c :: ds) = true
    /\ read_digits 0 (c :: ds) = Z.abs n
    /\ to_dec n = if n <? 0 then "-"%char :: c :: ds else c :: ds.
Proof.
  unfold to_dec. destruct (Z.ltb_spec n 0) as [Hneg | Hpos].
  - destruct (dec_digits_spec (Z.to_nat (Z.log2 (- n))) (- n)) as (Hall & Hval & Hne).
    { split; [lia | apply log2_fuel; lia]. }
    destruct (dec_digits _ (- n)) as [|c ds]; [contradiction |].
    exists c, ds. rewrite Hval. repeat split; [assumption | lia].
  - destruct (dec_digits_spec (Z.to_nat (Z.log2 n)) n) as (Hall & Hval & Hne).
    { split; [lia | apply log2_fuel; lia]. }
    destruct (dec_digits _ n) as [|c ds]; [contradiction |].
    exists c, ds. rewrite Hval. repeat split; [assumption | lia].
Qed.

Lemma span_digits_app ds rest :
  forallb isdigit ds = true -> starts_without_digit rest = true ->
  span_digits (ds ++ rest) = (ds, rest).
Proof.
  intros Hds Hrest. induction ds as [|c ds IH]; cbn [app span_digits].
  - destruct rest as [|x rest]; [reflexivity |].
    cbn [starts_without_digit] in Hrest. apply negb_true_iff in Hrest.
    cbn [span_digits]. rewrite Hrest. reflexivity.
  - cbn [forallb] in Hds. apply andb_true_iff in Hds as [Hc Hds].
    rewrite Hc, (IH Hds). reflexivity.
Qed.

(** [cin >> v] on a number the program could have printed, after any
    white space and before something that is not a digit. *)
Lemma extract_int_typed v ws n x rest :
  forallb isspace ws = true -> int_range n -> isdigit x = false ->
  extract_int v (mkIstream (ws ++ to_dec n ++ x :: rest) false false)
  = (n, mkIstream (x :: rest) false false).
Proof.
  intros Hws [Hlo Hhi] Hx.
  destruct (to_dec_shape n) as (c & ds & Hall & Hval & Hshape).
  assert (Hc : isdigit c = true) by (cbn [forallb] in Hall; apply andb_true_iff in Hall; tauto).
  destruct (isdigit_plain c Hc) as (Hs & Hm & Hp & _).
  assert (Hrest : starts_without_digit (x :: rest) = true)
    by (cbn [starts_without_digit]; rewrite Hx; reflexivity).
  unfold extract_int, sentry. cbn [good eofbit failbit rdbuf negb andb].
  rewrite (skip_space_app _ _ Hws), Hshape.
  destruct (Z.ltb_spec n 0) as [Hneg | Hpos].
  - cbn [app skip_space]. change (isspace "-") with false. cbv iota.
    cbn [negb rdbuf]. change (Ascii.eqb "-" "-") with true. cbv iota.
    change (c :: ds ++ x :: rest) with ((c :: ds) ++ x :: rest).
    rewrite (span_digits_app _ _ Hall Hrest). cbn [is_empty].
    rewrite Hval.
    destruct (Z.ltb_spec (- Z.abs n) INT_MIN) as [H1 | H1]; [lia |].
    destruct (Z.ltb_spec INT_MAX (- Z.abs n)) as [H2 | H2].
    { unfold INT_MAX in *. lia. }
    replace (- Z.abs n) with n by lia. reflexivity.
  - cbn [app skip_space]. rewrite Hs. cbn [negb rdbuf]. rewrite Hm, Hp.
    change (c :: ds ++ x :: rest) with ((c :: ds) ++ x :: rest).
    rewrite (span_digits_app _ _ Hall Hrest). cbn [is_empty].
    rewrite Hval.
    destruct (Z.ltb_spec (Z.abs n) INT_MIN) as [H1 | H1].
    { unfold INT_MIN in *. lia. }
    destruct (Z.ltb_spec INT_MAX (Z.abs n)) as [H2 | H2]; [lia |].
    replace (Z.abs n) with n by lia. reflexivity.
Qed.

Lemma ignore_good c rest :
  ignore (mkIstream (c :: rest) false false) = mkIstream rest false false.
Proof. reflexivity. Qed.

Lemma extract_line_typed str line rest :
  has_char LF line = false ->
  extract_line str (mkIstream (line ++ LF :: rest) false false)
  = (line, mkIstream rest false false).
Proof.
  intros Hline.
  assert (Hhas : has_char LF (line ++ LF :: rest) = true).
  { rewrite has_char_app, has_char_cons, Ascii.eqb_refl. apply orb_true_r. }
  pose proof (until_LF_app _ rest Hline) as Huntil.
  destruct line as [|c line]; [reflexivity |].
  unfold extract_line, sentry. cbn [good eofbit failbit rdbuf negb andb app].
  cbn [app] in Huntil, Hhas. rewrite Huntil, Hhas. reflexivity.
Qed.

(** Once [failbit] is set, nothing is read any more: the variables keep
    their values and the stream stays as it is. *)
Lemma extract_failed b e :
  (forall v, extract_int v (mkIstream b e true) = (v, mkIstream b e true))
  /\ ignore (mkIstream b e true) = mkIstream b e true
  /\ (forall str, extract_line str (mkIstream b e true) = (str, mkIstream b e true)).
Proof.
  unfold extract_int, ignore, extract_line, sentry, good.
  cbn [eofbit failbit rdbuf negb]. rewrite andb_false_r. repeat split.
Qed.

(** ** The methods on [cin] *)

Lemma call_eq {A} (m : M A) p :
  call m p
  = (outcome m (world_of_process p),
     mkProcess (cin p)
       (students (exec m (world_of_process p)))
       (students_txt (exec m (world_of_process p)))
       (screen p ++ map Shown (cout (exec m (world_of_process p))))).
Proof.
  unfold call, outcome, exec, world_of_process.
  destruct (m (mkWorld (vec p) (disk p) [])) as [r w]. reflexivity.
Qed.

Ltac runio :=
  cbv [mbind IO_bind mret IO_ret say cin_int cin_ignore cin_getline];
  cbn [cin vec disk screen].

Lemma addStudent_cin_spec roll0 p :
  addStudent_cin roll0 p
  = let '(roll, s1) := extract_int roll0 (cin p) in
    let '(n, s3) := extract_line [] (ignore s1) in
    let '(d, s4) := extract_line [] s3 in
    let '(e, s5) := extract_line [] s4 in
    let '(ph, s6) := extract_line [] s5 in
    call (addStudent roll n d e ph) (mkProcess s6 (vec p) (disk p) (screen p)).
Proof.
  unfold addStudent_cin. runio.
  destruct (extract_int roll0 (cin p)) as [roll s1]. cbn [cin vec disk screen].
  destruct (extract_line [] (ignore s1)) as [n s3]. cbn [cin vec disk screen].
  destruct (extract_line [] s3) as [d s4]. cbn [cin vec disk screen].
  destruct (extract_line [] s4) as [e s5]. cbn [cin vec disk screen].
  destruct (extract_line [] s5) as [ph s6]. cbn [cin vec disk screen].
  rewrite (call_eq (addStudent roll n d e ph)). unfold call, outcome, exec, world_of_process.
  rewrite addStudent_spec. run. rewrite saveToFile_spec.
  cbn [fst snd students students_txt cout vec disk screen cin app map].
  rewrite <- !app_assoc. reflexivity.
Qed.

Lemma searchStudent_cin_spec roll0 p :
  searchStudent_cin roll0 p
  = let '(roll, s1) := extract_int roll0 (cin p) in
    call (searchStudent roll) (mkProcess s1 (vec p) (disk p) (screen p)).
Proof.
  unfold searchStudent_cin. runio.
  destruct (extract_int roll0 (cin p)) as [roll s1]. cbn [cin vec disk screen].
  unfold call. cbn [cin vec disk screen]. rewrite searchStudent_spec. run.
  rewrite search_loop_spec.
  destruct (findByRoll roll (vec p)) as [[j x]|];
    cbn [fst snd students students_txt cout app map negb];
    rewrite <- !app_assoc; reflexivity.
Qed.

Lemma deleteStudent_cin_spec roll0 p :
  deleteStudent_cin roll0 p
  = let '(roll, s1) := extract_int roll0 (cin p) in
    call (deleteStudent roll) (mkProcess s1 (vec p) (disk p) (screen p)).
Proof.
  unfold deleteStudent_cin. runio.
  destruct (extract_int roll0 (cin p)) as [roll s1]. cbn [cin vec disk screen].
  unfold call. cbn [cin vec disk screen]. rewrite deleteStudent_spec. run.
  rewrite delete_loop_spec. cbn [students].
  destruct (findByRoll roll (vec p)) as [[j x]|];
    cbn [fst snd students students_txt cout app map negb];
    rewrite <- !app_assoc; reflexivity.
Qed.

Lemma update_loop_cin_spec roll todo i p :
  update_loop_cin roll i todo p
  = match findByRoll roll todo with
    | Some (j, s) =>
        let '(newName, s1) := extract_line [] (cin p) in
        let l' := <[(i + j)%nat := setName newName s]> (vec p) in
        (Ok true,
         mkProcess s1 l' (saved (disk p) (serialize l'))
           (screen p ++ [Shown EnterNewName; Shown StudentUpdated]))
    | None => (Ok false, p)
    end.
Proof.
  revert i. induction todo as [|s todo IH]; intros i; [reflexivity |].
  cbn [update_loop_cin]. rewrite findByRoll_cons.
  destruct (getRollNo s =? roll).
  - runio. destruct (extract_line [] (cin p)) as [newName s1].
    unfold call. cbn [cin vec disk screen]. run. rewrite saveToFile_spec.
    cbn [fst snd students students_txt cout app map]. rewrite Nat.add_0_r.
    rewrite <- !app_assoc. reflexivity.
  - rewrite IH. destruct (findByRoll roll todo) as [[j x]|]; [| reflexivity].
    cbn. rewrite Nat.add_succ_r. reflexivity.
Qed.

Lemma updateStudent_cin_spec roll0 p :
  updateStudent_cin roll0 p
  = let '(roll, s1) := extract_int roll0 (cin p) in
    match findByRoll roll (vec p) with
    | Some _ =>
        let '(newName, s3) := extract_line [] (ignore s1) in
        call (updateStudent roll newName) (mkProcess s3 (vec p) (disk p) (screen p))
    | None =>
        call (updateStudent roll []) (mkProcess (ignore s1) (vec p) (disk p) (screen p))
    end.
Proof.
  unfold updateStudent_cin. runio.
  destruct (extract_int roll0 (cin p)) as [roll s1]. cbn [cin vec disk screen].
  unfold call at 1. cbn [cin vec disk screen]. run. rewrite app_nil_r.
  rewrite update_loop_cin_spec. cbn [cin vec disk screen].
  destruct (findByRoll roll (vec p)) as [[j x]|] eqn:Hfind.
  - destruct (extract_line [] (ignore s1)) as [newName s3].
    unfold call. cbn [cin vec disk screen]. rewrite updateStudent_spec.
    cbn [students]. rewrite Hfind.
    cbn [fst snd students students_txt cout app map negb].
    rewrite <- ?app_assoc. reflexivity.
  - unfold call. cbn [cin vec disk screen]. rewrite updateStudent_spec.
    cbn [students]. rewrite Hfind.
    cbn [fst snd students students_txt cout app map negb cin vec disk screen].
    rewrite <- ?app_assoc. reflexivity.
Qed.

(** Reading and acting do not mix: each method on [cin] extracts its
    values (for an add a number, one character dropped, four lines; for an
    update the new name only once the roll number is found) and then does
    what the method does on these values, with the same prompts and
    messages in the same order. *)
Theorem methods_read_then_act roll0 p :
  addStudent_cin roll0 p
  = (let '(roll, s1) := extract_int roll0 (cin p) in
     let '(n, s3) := extract_line [] (ignore s1) in
     let '(d, s4) := extract_line [] s3 in
     let '(e, s5) := extract_line [] s4 in
     let '(ph, s6) := extract_line [] s5 in
     call (addStudent roll n d e ph) (mkProcess s6 (vec p) (disk p) (screen p)))
  /\ searchStudent_cin roll0 p
     = (let '(roll, s1) := extract_int roll0 (cin p) in
        call (searchStudent roll) (mkProcess s1 (vec p) (disk p) (screen p)))
  /\ updateStudent_cin roll0 p
     = (let '(roll, s1) := extract_int roll0 (cin p) in
        match findByRoll roll (vec p) with
        | Some _ =>
            let '(newName, s3) := extract_line [] (ignore s1) in
            call (updateStudent roll newName) (mkProcess s3 (vec p) (disk p) (screen p))
        | None =>
            call (updateStudent roll []) (mkProcess (ignore s1) (vec p) (disk p) (screen p))
        end)
  /\ deleteStudent_cin roll0 p
     = (let '(roll, s1) := extract_int roll0 (cin p) in
        call (deleteStudent roll) (mkProcess s1 (vec p) (disk p) (screen p))).
Proof.
  split; [apply addStudent_cin_spec |].
  split; [apply searchStudent_cin_spec |].
  split; [apply updateStudent_cin_spec | apply deleteStudent_cin_spec].
Qed.

(** ** A session at the menu *)

Lemma typed_split w c : typed w c = typed_body w c ++ pending c.
Proof.
  destruct c as [roll n d e p | | roll | roll newName | roll];
    cbn [typed typed_body pending]; rewrite ?app_nil_r; reflexivity.
Qed.

Lemma in_int_range_spec n : in_int_range n = true -> int_range n.
Proof.
  unfold in_int_range. intros [H1 H2]%andb_true_iff. split; apply Z.leb_le; assumption.
Qed.

Lemma isdigit_LF : isdigit LF = false.
Proof. reflexivity. Qed.

Lemma IO_bind_eq {A B} (m : IO A) (k : A -> IO B) p a p' :
  m p = (Ok a, p') -> (m ≫= k) p = k a p'.
Proof. intros H. cbv [mbind IO_bind]. rewrite H. reflexivity. Qed.

Lemma cin_int_typed v ws n x rest l f scr :
  forallb isspace ws = true -> int_range n -> isdigit x = false ->
  cin_int v (mkProcess (mkIstream (ws ++ to_dec n ++ x :: rest) false false) l f scr)
  = (Ok n, mkProcess (mkIstream (x :: rest) false false) l f scr).
Proof.
  intros Hws Hn Hx. unfold cin_int. cbn [cin vec disk screen].
  rewrite (extract_int_typed _ _ _ _ _ Hws Hn Hx). reflexivity.
Qed.

Lemma cin_getline_typed str line rest l f scr :
  has_char LF line = false ->
  cin_getline str (mkProcess (mkIstream (line ++ LF :: rest) false false) l f scr)
  = (Ok line, mkProcess (mkIstream rest false false) l f scr).
Proof.
  intros Hline. unfold cin_getline. cbn [cin vec disk screen].
  rewrite (extract_line_typed _ _ _ Hline). reflexivity.
Qed.

(** The start of a turn: the choice is read and the newline dropped. *)
Lemma menu_reads_choice fuel indet k choice ws n rest l f scr :
  forallb isspace ws = true -> int_range n ->
  menu_cin (S fuel) indet k choice
    (mkProcess (mkIstream (ws ++ to_dec n ++ LF :: rest) false false) l f scr)
  = ((match n with
      | 1 => addStudent_cin (indet k)
      | 2 => call viewStudents
      | 3 => searchStudent_cin (indet k)
      | 4 => updateStudent_cin (indet k)
      | 5 => deleteStudent_cin (indet k)
      | 6 => say Exiting
      | _ => say InvalidChoice
      end);;
     if n =? 6 then mret true else menu_cin fuel indet (S k) n)
      (mkProcess (mkIstream rest false false) l f (scr ++ [MenuShown])).
Proof.
  intros Hws Hn. cbn [menu_cin].
  erewrite IO_bind_eq by reflexivity. cbn [cin vec disk screen].
  erewrite IO_bind_eq by (apply cin_int_typed; [assumption | assumption | reflexivity]).
  erewrite IO_bind_eq by reflexivity. cbn [cin vec disk screen ignore].
  reflexivity.
Qed.

Lemma extract_int_line v n rest :
  int_range n ->
  extract_int v (mkIstream (to_dec n ++ LF :: rest) false false)
  = (n, mkIstream (LF :: rest) false false).
Proof. intros Hn. exact (extract_int_typed v [] n LF rest eq_refl Hn isdigit_LF). Qed.

Lemma addStudent_cin_typed roll0 roll n d e ph rest l f scr :
  valid_input (CmdAdd roll n d e ph) = true ->
  addStudent_cin roll0
    (mkProcess
       (mkIstream (to_dec roll ++ LF :: n ++ LF :: d ++ LF :: e ++ LF :: ph ++ LF :: rest)
          false false) l f scr)
  = call (addStudent roll n d e ph) (mkProcess (mkIstream rest false false) l f scr).
Proof.
  cbn [valid_input]. unfold one_line. rewrite !andb_true_iff, !negb_true_iff.
  intros ((((Hr & Hn) & Hd) & He) & Hp). apply in_int_range_spec in Hr.
  rewrite addStudent_cin_spec. cbn [cin vec disk screen].
  rewrite (extract_int_line roll0 roll _ Hr).
  rewrite ignore_good.
  rewrite (extract_line_typed _ _ _ Hn), (extract_line_typed _ _ _ Hd),
    (extract_line_typed _ _ _ He), (extract_line_typed _ _ _ Hp).
  reflexivity.
Qed.

Lemma searchStudent_cin_typed roll0 roll rest l f scr :
  in_int_range roll = true ->
  searchStudent_cin roll0
    (mkProcess (mkIstream (to_dec roll ++ LF :: rest) false false) l f scr)
  = call (searchStudent roll) (mkProcess (mkIstream (LF :: rest) false false) l f scr).
Proof.
  intros Hr%in_int_range_spec. rewrite searchStudent_cin_spec. cbn [cin vec disk screen].
  rewrite (extract_int_line roll0 roll _ Hr). reflexivity.
Qed.

Lemma deleteStudent_cin_typed roll0 roll rest l f scr :
  in_int_range roll = true ->
  deleteStudent_cin roll0
    (mkProcess (mkIstream (to_dec roll ++ LF :: rest) false false) l f scr)
  = call (deleteStudent roll) (mkProcess (mkIstream (LF :: rest) false false) l f scr).
Proof.
  intros Hr%in_int_range_spec. rewrite deleteStudent_cin_spec. cbn [cin vec disk screen].
  rewrite (extract_int_line roll0 roll _ Hr). reflexivity.
Qed.

Lemma updateStudent_cin_typed roll0 roll newName rest l f scr :
  valid_input (CmdUpdate roll newName) = true ->
  updateStudent_cin roll0
    (mkProcess
       (mkIstream
          (to_dec roll ++ LF ::
             match findByRoll roll l with
             | Some _ => newName ++ LF :: rest
             | None => rest
             end) false false) l f scr)
  = call (updateStudent roll newName) (mkProcess (mkIstream rest false false) l f scr).
Proof.
  cbn [valid_input]. unfold one_line. rewrite andb_true_iff, negb_true_iff.
  intros [Hr%in_int_range_spec Hn].
  rewrite updateStudent_cin_spec. cbn [cin vec disk screen].
  rewrite (extract_int_line roll0 roll _ Hr).
  rewrite ignore_good.
  destruct (findByRoll roll l) as [[j x]|] eqn:Hfind.
  - rewrite (extract_line_typed _ _ _ Hn). reflexivity.
  - unfold call. cbn [cin vec disk screen]. rewrite !updateStudent_spec.
    cbn [students]. rewrite Hfind. reflexivity.
Qed.

Lemma choice_of_range c : int_range (choice_of c).
Proof. destruct c; vm_compute; split; discriminate. Qed.

Ltac flatten := repeat (rewrite <- app_assoc; cbn [app]).

(** One turn of the menu on what the user types for it. *)
Lemma menu_turn c fuel indet k choice ws rest l f scr :
  valid_input c = true -> forallb isspace ws = true ->
  menu_cin (S fuel) indet k choice
    (mkProcess (mkIstream (ws ++ typed (mkWorld l f []) c ++ rest) false false) l f scr)
  = menu_cin fuel indet (S k) (choice_of c)
      (snd (call (dispatch c)
              (mkProcess (mkIstream (pending c ++ rest) false false) l f
                 (scr ++ [MenuShown])))).
Proof.
  intros Hc Hws.
  assert (Hcall : forall p, call (dispatch c) p = (Ok tt, snd (call (dispatch c) p))).
  { intros p. rewrite call_eq. unfold outcome. rewrite dispatch_ok. reflexivity. }
  destruct c as [roll n d e p | | roll | roll newName | roll];
    cbn [typed pending dispatch choice_of app students] in *.
  - change (txt "1") with (to_dec 1). flatten.
    rewrite (menu_reads_choice _ _ _ _ _ 1 _ _ _ _ Hws (choice_of_range (CmdAdd roll n d e p))).
    cbv iota.
    erewrite IO_bind_eq
      by (rewrite (addStudent_cin_typed _ _ _ _ _ _ _ _ _ _ Hc); apply Hcall).
    reflexivity.
  - change (txt "2") with (to_dec 2). flatten.
    rewrite (menu_reads_choice _ _ _ _ _ 2 _ _ _ _ Hws (choice_of_range CmdView)).
    cbv iota. erewrite IO_bind_eq by apply Hcall. reflexivity.
  - change (txt "3") with (to_dec 3). flatten.
    rewrite (menu_reads_choice _ _ _ _ _ 3 _ _ _ _ Hws (choice_of_range (CmdSearch roll))).
    cbv iota.
    erewrite IO_bind_eq
      by (rewrite (searchStudent_cin_typed _ _ _ _ _ _ Hc); apply Hcall).
    reflexivity.
  - change (txt "4") with (to_dec 4). flatten.
    rewrite (menu_reads_choice _ _ _ _ _ 4 _ _ _ _ Hws
               (choice_of_range (CmdUpdate roll newName))).
    cbv iota.
    erewrite IO_bind_eq.
    2:{ replace (match findByRoll roll l with
                 | Some _ => newName ++ [LF]
                 | None => []
                 end ++ rest)
          with (match findByRoll roll l with
                | Some _ => newName ++ LF :: rest
                | None => rest
                end)
          by (destruct (findByRoll roll l); [flatten |]; reflexivity).
        rewrite (updateStudent_cin_typed _ _ _ _ _ _ _ Hc). apply Hcall. }
    reflexivity.
  - change (txt "5") with (to_dec 5). flatten.
    rewrite (menu_reads_choice _ _ _ _ _ 5 _ _ _ _ Hws (choice_of_range (CmdDelete roll))).
    cbv iota.
    erewrite IO_bind_eq
      by (rewrite (deleteStudent_cin_typed _ _ _ _ _ _ Hc); apply Hcall).
    reflexivity.
Qed.

Lemma dispatch_ext c w1 w2 :
  students w1 = students w2 -> students_txt w1 = students_txt w2 ->
  students (exec (dispatch c) w1) = students (exec (dispatch c) w2)
  /\ students_txt (exec (dispatch c) w1) = students_txt (exec (dispatch c) w2).
Proof.
  destruct w1 as [l1 f1 c1], w2 as [l2 f2 c2]. cbn [students students_txt].
  intros <- <-. unfold exec.
  destruct c as [roll n d e p | | roll | roll newName | roll]; cbn [dispatch].
  - rewrite !addStudent_spec. split; reflexivity.
  - rewrite !viewStudents_spec. split; reflexivity.
  - rewrite !searchStudent_spec. split; reflexivity.
  - rewrite !updateStudent_spec. cbn [snd students].
    destruct (findByRoll roll l1) as [[i s]|]; split; reflexivity.
  - rewrite !deleteStudent_spec. cbn [snd students].
    destruct (findByRoll roll l1) as [[i s]|]; split; reflexivity.
Qed.

Lemma typed_ext c w1 w2 : students w1 = students w2 -> typed w1 c = typed w2 c.
Proof. intros H. destruct c; cbn [typed]; rewrite ?H; reflexivity. Qed.

Lemma session_ext cs w1 w2 :
  students w1 = students w2 -> students_txt w1 = students_txt w2 ->
  session w1 cs = session w2 cs.
Proof.
  revert w1 w2. induction cs as [|c cs IH]; intros w1 w2 Hl Hf; [reflexivity |].
  cbn [session]. rewrite (typed_ext c w1 w2 Hl).
  destruct (dispatch_ext c w1 w2 Hl Hf) as [Hl' Hf']. rewrite (IH _ _ Hl' Hf').
  reflexivity.
Qed.

Lemma menu_ext cs w1 w2 :
  students w1 = students w2 -> students_txt w1 = students_txt w2 ->
  students (exec (menu cs) w1) = students (exec (menu cs) w2)
  /\ students_txt (exec (menu cs) w1) = students_txt (exec (menu cs) w2).
Proof.
  revert w1 w2. induction cs as [|c cs IH]; intros w1 w2 Hl Hf; [split; assumption |].
  unfold exec in *. rewrite !menu_cons.
  destruct (dispatch_ext c w1 w2 Hl Hf) as [Hl' Hf']. apply IH; assumption.
Qed.

Lemma dispatch_cout_ext c w1 w2 :
  students w1 = students w2 -> students_txt w1 = students_txt w2 ->
  cout (exec (dispatch c) (reset w1)) = cout (exec (dispatch c) (reset w2)).
Proof.
  destruct w1 as [l1 f1 c1], w2 as [l2 f2 c2]. cbn [students students_txt].
  intros <- <-. reflexivity.
Qed.

Lemma session_screen_ext cs w1 w2 :
  students w1 = students w2 -> students_txt w1 = students_txt w2 ->
  session_screen w1 cs = session_screen w2 cs.
Proof.
  revert w1 w2. induction cs as [|c cs IH]; intros w1 w2 Hl Hf; [reflexivity |].
  cbn [session_screen]. rewrite (dispatch_cout_ext c w1 w2 Hl Hf).
  destruct (dispatch_ext c w1 w2 Hl Hf) as [Hl' Hf']. rewrite (IH _ _ Hl' Hf').
  reflexivity.
Qed.

Lemma menu_cons_exec c cs w :
  exec (menu (c :: cs)) w = exec (menu cs) (exec (dispatch c) w).
Proof. unfold exec. rewrite menu_cons. reflexivity. Qed.

Lemma pending_space c : forallb isspace (pending c) = true.
Proof. destruct c; reflexivity. Qed.

Lemma menu_session cs fuel indet k choice ws rest l f scr :
  forallb valid_input cs = true -> forallb isspace ws = true ->
  (length cs < fuel)%nat ->
  menu_cin fuel indet k choice
    (mkProcess
       (mkIstream (ws ++ session (mkWorld l f []) cs ++ txt "6" ++ LF :: rest) false false)
       l f scr)
  = (Ok true,
     mkProcess (mkIstream rest false false)
       (students (exec (menu cs) (mkWorld l f [])))
       (students_txt (exec (menu cs) (mkWorld l f [])))
       (scr ++ session_screen (mkWorld l f []) cs)).
Proof.
  revert fuel k choice ws l f scr.
  induction cs as [|c cs IH]; intros fuel k choice ws l f scr Hcs Hws Hfuel;
    (destruct fuel as [|fuel]; [cbn in Hfuel; lia |]).
  - cbn [session app]. change (txt "6") with (to_dec 6).
    assert (H6 : int_range 6) by (vm_compute; split; discriminate).
    rewrite (menu_reads_choice _ _ _ _ _ 6 _ _ _ _ Hws H6). cbv iota.
    cbv [mbind IO_bind say mret IO_ret]. cbn [cin vec disk screen Z.eqb Pos.eqb].
    rewrite <- app_assoc. reflexivity.
  - cbn [forallb] in Hcs. apply andb_true_iff in Hcs as [Hc Hcs].
    cbn [session length] in *. flatten.
    rewrite (menu_turn c _ _ _ _ _ _ _ _ _ Hc Hws), call_eq.
    cbn [snd cin vec disk screen world_of_process].
    set (w' := exec (dispatch c) (mkWorld l f [])).
    rewrite (session_ext cs w' (mkWorld (students w') (students_txt w') []) eq_refl eq_refl).
    rewrite (IH fuel (S k) (choice_of c) (pending c) (students w') (students_txt w')
               _ Hcs (pending_space c)) by lia.
    destruct (menu_ext cs (mkWorld (students w') (students_txt w') []) w' eq_refl eq_refl)
      as [-> ->].
    rewrite (session_screen_ext cs (mkWorld (students w') (students_txt w') []) w'
               eq_refl eq_refl).
    rewrite !menu_cons_exec. fold w'.
    cbn [session_screen reset students students_txt world_of_process vec disk].
    fold w'. rewrite <- !app_assoc. reflexivity.
Qed.

(** ** When [cin] has failed *)

Lemma switch_default {A} (a1 a2 a3 a4 a5 a6 d : A) n :
  n <> 1 -> n <> 2 -> n <> 3 -> n <> 4 -> n <> 5 -> n <> 6 ->
  match n with
  | 1 => a1 | 2 => a2 | 3 => a3 | 4 => a4 | 5 => a5 | 6 => a6 | _ => d
  end = d.
Proof.
  intros H1 H2 H3 H4 H5 H6.
  destruct n as [|[[[]|[]|]|[[]|[]|]|]|]; try reflexivity; contradiction.
Qed.

Lemma cin_int_failed v b e l f scr :
  cin_int v (mkProcess (mkIstream b e true) l f scr)
  = (Ok v, mkProcess (mkIstream b e true) l f scr).
Proof.
  unfold cin_int. cbn [cin vec disk screen].
  rewrite (proj1 (extract_failed b e)). reflexivity.
Qed.

(** On a failed stream every method runs on the values its variables
    already hold: the uninitialised [roll] and empty strings. *)
Lemma methods_on_failed_cin roll0 b e l f scr :
  let p := mkProcess (mkIstream b e true) l f scr in
  addStudent_cin roll0 p = call (addStudent roll0 [] [] [] []) p
  /\ searchStudent_cin roll0 p = call (searchStudent roll0) p
  /\ updateStudent_cin roll0 p = call (updateStudent roll0 []) p
  /\ deleteStudent_cin roll0 p = call (deleteStudent roll0) p.
Proof.
  intros p. subst p. destruct (extract_failed b e) as (Hint & Hign & Hline).
  rewrite addStudent_cin_spec, searchStudent_cin_spec, updateStudent_cin_spec,
    deleteStudent_cin_spec.
  cbn [cin vec disk screen].
  repeat (rewrite Hint || rewrite Hign || rewrite Hline).
  repeat split. destruct (findByRoll roll0 l); reflexivity.
Qed.

Lemma call_dispatch c p :
  call (dispatch c) p = (Ok tt, snd (call (dispatch c) p))
  /\ cin (snd (call (dispatch c) p)) = cin p.
Proof.
  rewrite call_eq. unfold outcome. rewrite dispatch_ok. split; reflexivity.
Qed.

(** One turn in which [cin >> choice] fails and leaves [choice] as it
    was: the method chosen last runs again, on a failed stream. *)
Lemma menu_turn_failed fuel indet k choice s b e l f scr :
  extract_int choice s = (choice, mkIstream b e true) ->
  choice <> 6 ->
  exists p',
    cin p' = mkIstream b e true
    /\ menu_cin (S fuel) indet k choice (mkProcess s l f scr)
       = menu_cin fuel indet (S k) choice p'.
Proof.
  intros Hext H6. cbn [menu_cin].
  erewrite IO_bind_eq by reflexivity. cbn [cin vec disk screen].
  erewrite IO_bind_eq by (unfold cin_int; cbn [cin vec disk screen]; rewrite Hext; reflexivity).
  erewrite IO_bind_eq by reflexivity. cbn [cin vec disk screen].
  rewrite (proj1 (proj2 (extract_failed b e))).
  assert (Hne : (choice =? 6) = false) by (apply Z.eqb_neq; assumption).
  destruct (methods_on_failed_cin (indet k) b e l f (scr ++ [MenuShown]))
    as (Hadd & Hsearch & Hupdate & Hdelete).
  destruct (Z.eq_dec choice 1) as [-> | H1];
    [| destruct (Z.eq_dec choice 2) as [-> | H2];
       [| destruct (Z.eq_dec choice 3) as [-> | H3];
          [| destruct (Z.eq_dec choice 4) as [-> | H4];
             [| destruct (Z.eq_dec choice 5) as [-> | H5]]]]].
  - destruct (call_dispatch (CmdAdd (indet k) [] [] [] [])
                (mkProcess (mkIstream b e true) l f (scr ++ [MenuShown]))) as [Hc Hcin].
    eexists. split; [exact Hcin |].
    erewrite IO_bind_eq by (rewrite Hadd; exact Hc). reflexivity.
  - destruct (call_dispatch CmdView
                (mkProcess (mkIstream b e true) l f (scr ++ [MenuShown]))) as [Hc Hcin].
    eexists. split; [exact Hcin |].
    erewrite IO_bind_eq by exact Hc. reflexivity.
  - destruct (call_dispatch (CmdSearch (indet k))
                (mkProcess (mkIstream b e true) l f (scr ++ [MenuShown]))) as [Hc Hcin].
    eexists. split; [exact Hcin |].
    erewrite IO_bind_eq by (rewrite Hsearch; exact Hc). reflexivity.
  - destruct (call_dispatch (CmdUpdate (indet k) [])
                (mkProcess (mkIstream b e true) l f (scr ++ [MenuShown]))) as [Hc Hcin].
    eexists. split; [exact Hcin |].
    erewrite IO_bind_eq by (rewrite Hupdate; exact Hc). reflexivity.
  - destruct (call_dispatch (CmdDelete (indet k))
                (mkProcess (mkIstream b e true) l f (scr ++ [MenuShown]))) as [Hc Hcin].
    eexists. split; [exact Hcin |].
    erewrite IO_bind_eq by (rewrite Hdelete; exact Hc). reflexivity.
  - rewrite (switch_default _ _ _ _ _ _ _ choice H1 H2 H3 H4 H5 H6).
    eexists. split; [| erewrite IO_bind_eq by reflexivity; rewrite Hne; reflexivity].
    reflexivity.
Qed.

Lemma menu_failed fuel indet k choice p :
  failbit (cin p) = true -> choice <> 6 ->
  fst (menu_cin fuel indet k choice p) = Ok false
  /\ cin (snd (menu_cin fuel indet k choice p)) = cin p.
Proof.
  revert k p. induction fuel as [|fuel IH]; intros k p Hfail H6; [split; reflexivity |].
  destruct p as [[b e fl] l f scr]. cbn [cin failbit] in Hfail. subst fl.
  destruct (menu_turn_failed fuel indet k choice _ b e l f scr
              (proj1 (extract_failed b e) choice) H6) as (p' & Hcin & ->).
  destruct (IH (S k) p') as [Hr Hc]; [rewrite Hcin; reflexivity | assumption |].
  rewrite Hr, Hc, Hcin. split; reflexivity.
Qed.

Lemma extract_int_at_end v ws :
  forallb isspace ws = true ->
  extract_int v (mkIstream ws false false) = (v, mkIstream [] true true).
Proof.
  intros Hws. unfold extract_int, sentry. cbn [good eofbit failbit rdbuf negb andb].
  rewrite <- (app_nil_r ws), (skip_space_app _ _ Hws). reflexivity.
Qed.

Lemma extract_int_no_number v ws x rest :
  forallb isspace ws = true -> isspace x = false -> isdigit x = false ->
  Ascii.eqb x "-" = false -> Ascii.eqb x "+" = false ->
  extract_int v (mkIstream (ws ++ x :: rest) false false)
  = (0, mkIstream (x :: rest) false true).
Proof.
  intros Hws Hs Hd Hm Hp. unfold extract_int, sentry.
  cbn [good eofbit failbit rdbuf negb andb].
  rewrite (skip_space_app _ _ Hws). cbn [skip_space]. rewrite Hs.
  cbn [negb rdbuf]. rewrite Hm, Hp. cbn [span_digits]. rewrite Hd. reflexivity.
Qed.

Lemma menu_failed_invalid fuel indet k choice b e l f scr :
  choice <> 1 -> choice <> 2 -> choice <> 3 -> choice <> 4 -> choice <> 5 ->
  choice <> 6 ->
  menu_cin fuel indet k choice (mkProcess (mkIstream b e true) l f scr)
  = (Ok false,
     mkProcess (mkIstream b e true) l f
       (scr ++ concat (replicate fuel [MenuShown; InvalidChoice]))).
Proof.
  intros H1 H2 H3 H4 H5 H6. revert k scr.
  induction fuel as [|fuel IH]; intros k scr.
  - cbn [menu_cin replicate concat]. rewrite app_nil_r. reflexivity.
  - cbn [menu_cin].
    erewrite IO_bind_eq by reflexivity. cbn [cin vec disk screen].
    erewrite IO_bind_eq by apply cin_int_failed.
    erewrite IO_bind_eq by reflexivity. cbn [cin vec disk screen].
    rewrite (proj1 (proj2 (extract_failed b e))).
    rewrite (switch_default _ _ _ _ _ _ _ choice H1 H2 H3 H4 H5 H6).
    erewrite IO_bind_eq by reflexivity. cbn [cin vec disk screen].
    assert (Hne : (choice =? 6) = false) by (apply Z.eqb_neq; assumption).
    rewrite Hne, IH. cbn [replicate concat].
    rewrite <- !app_assoc. reflexivity.
Qed.


(** ** The whole program *)

Lemma StudentSystem_new_cout indet w : cout (exec (StudentSystem_new indet) w) = cout w.
Proof.
  unfold StudentSystem_new, loadFromFile, exec. run.
  apply (load_loop_frame indet _ O (mkWorld [] (students_txt w) (cout w))).
Qed.

(** A session at the keyboard. Started on a file that loads, and given
    what a user types for a list of operations (one line per value asked
    for, roll numbers within [int]) followed by the choice 6, [main] ends
    normally; the vector and the file are those the operations produce one
    after the other, the rest of the input is left unread, and the screen
    shows the menu before each turn, the messages of each method in order,
    and the farewell. *)
Theorem typed_session_exits indet_load indet choice0 file cs rest fuel :
  outcome (StudentSystem_new indet_load) (mkWorld [] file []) = Ok tt ->
  forallb valid_input cs = true ->
  (length cs < fuel)%nat ->
  let w0 := exec (StudentSystem_new indet_load) (mkWorld [] file []) in
  main_cin fuel indet_load indet choice0
    (start (session w0 cs ++ txt "6" ++ LF :: rest) file)
  = (Ok true,
     mkProcess (mkIstream rest false false)
       (students (exec (menu cs) w0)) (students_txt (exec (menu cs) w0))
       (session_screen w0 cs)).
Proof.
  intros Hload Hcs Hfuel w0. unfold main_cin, start.
  erewrite IO_bind_eq.
  2:{ rewrite call_eq. unfold world_of_process. cbn [vec disk cin screen].
      rewrite Hload. fold w0. reflexivity. }
  assert (Hcout : cout w0 = []) by apply StudentSystem_new_cout.
  rewrite Hcout. cbn [map app].
  pose proof (menu_session cs fuel indet O choice0 [] rest (students w0)
                (students_txt w0) [] Hcs eq_refl Hfuel) as Hrun.
  cbn [app] in Hrun.
  rewrite (session_ext cs (mkWorld (students w0) (students_txt w0) []) w0
             eq_refl eq_refl) in Hrun.
  rewrite Hrun.
  destruct (menu_ext cs (mkWorld (students w0) (students_txt w0) []) w0 eq_refl eq_refl)
    as [-> ->].
  rewrite (session_screen_ext cs (mkWorld (students w0) (students_txt w0) []) w0
             eq_refl eq_refl).
  reflexivity.
Qed.

Lemma typed_session_exits_witness :
  main_cin 3 (fun _ => 0) (fun _ => 0) 0
    (start (txt "1" ++ LF :: txt "1" ++ LF :: txt "Alice" ++ LF :: txt "CS" ++ LF
              :: txt "a@x.com" ++ LF :: txt "555" ++ LF
              :: txt "3" ++ LF :: txt "1" ++ LF :: txt "6" ++ LF :: txt "unread")
       no_file)
  = (Ok true,
     mkProcess (mkIstream (txt "unread") false false) [Alice]
       (file_with (serialize [Alice]))
       [MenuShown; Shown EnterRollNo; Shown EnterName; Shown EnterDepartment;
        Shown EnterEmail; Shown EnterPhone; Shown StudentAdded;
        MenuShown; Shown EnterRollNoToSearch; Shown (Display Alice);
        MenuShown; Exiting]).
Proof.
  exact (typed_session_exits (fun _ => 0) (fun _ => 0) 0 no_file
           [CmdAdd 1 (txt "Alice") (txt "CS") (txt "a@x.com") (txt "555"); CmdSearch 1]
           (txt "unread") 3 eq_refl eq_refl (le_n 3)).
Defined.

(** A file that makes the loading throw ends the program before the menu
    is shown: [main] throws, nothing is printed, no input is read and the
    file is left as it was. *)
Theorem main_dies_on_broken_file indet_load indet choice0 file input fuel e :
  outcome (StudentSystem_new indet_load) (mkWorld [] file []) = Throw e ->
  fst (main_cin fuel indet_load indet choice0 (start input file)) = Throw e
  /\ screen (snd (main_cin fuel indet_load indet choice0 (start input file))) = []
  /\ cin (snd (main_cin fuel indet_load indet choice0 (start input file)))
     = mkIstream input false false
  /\ disk (snd (main_cin fuel indet_load indet choice0 (start input file))) = file.
Proof.
  intros Hload. unfold main_cin, start. cbv [mbind IO_bind].
  rewrite call_eq. unfold world_of_process. cbn [vec disk cin screen]. rewrite Hload.
  cbn [fst snd screen cin disk].
  rewrite StudentSystem_new_cout, StudentSystem_new_frame. repeat split.
Qed.

Lemma main_dies_on_broken_file_witness :
  outcome (StudentSystem_new (fun _ => 0)) (mkWorld [] (file_with (txt "x,a,b,c,d")) [])
  = Throw invalid_argument
  /\ fst (main_cin 5 (fun _ => 0) (fun _ => 0) 0
            (start (txt "6") (file_with (txt "x,a,b,c,d"))))
     = Throw invalid_argument.
Proof.
  assert (H : outcome (StudentSystem_new (fun _ => 0))
                (mkWorld [] (file_with (txt "x,a,b,c,d")) []) = Throw invalid_argument)
    by reflexivity.
  split; [exact H |].
  exact (proj1 (main_dies_on_broken_file (fun _ => 0) (fun _ => 0) 0 _ (txt "6") 5 _ H)).
Defined.

(** Once [cin] has failed the menu cannot be left: whatever [choice]
    holds, unless it is 6, no number of turns ends the loop, and the
    stream stays as it is. *)
Theorem menu_never_exits_once_cin_failed fuel indet k choice p :
  failbit (cin p) = true -> choice <> 6 ->
  fst (menu_cin fuel indet k choice p) = Ok false
  /\ cin (snd (menu_cin fuel indet k choice p)) = cin p.
Proof. apply menu_failed. Qed.

Lemma menu_never_exits_once_cin_failed_witness :
  fst (menu_cin 4 (fun _ => 0) O 3
         (mkProcess (mkIstream (txt "6") false true) [Alice] no_file []))
  = Ok false.
Proof.
  refine (proj1 (menu_never_exits_once_cin_failed 4 (fun _ => 0) O 3
                   (mkProcess (mkIstream (txt "6") false true) [Alice] no_file []) _ _)).
  - reflexivity.
  - discriminate.
Defined.

(** A choice that is not a number: when the first character after the
    white space is neither a digit nor a sign, [choice] becomes 0 and the
    stream fails, and every turn from then on prints the menu and "Invalid
    Choice!"; the loop never ends, nothing is read, the vector and the file
    are untouched. *)
Theorem menu_stuck_on_non_number fuel indet k choice ws x rest l f scr :
  forallb isspace ws = true -> isspace x = false -> isdigit x = false ->
  Ascii.eqb x "-" = false -> Ascii.eqb x "+" = false ->
  menu_cin (S fuel) indet k choice
    (mkProcess (mkIstream (ws ++ x :: rest) false false) l f scr)
  = (Ok false,
     mkProcess (mkIstream (x :: rest) false true) l f
       (scr ++ concat (replicate (S fuel) [MenuShown; InvalidChoice]))).
Proof.
  intros Hws Hs Hd Hm Hp. cbn [menu_cin].
  erewrite IO_bind_eq by reflexivity. cbn [cin vec disk screen].
  erewrite IO_bind_eq
    by (unfold cin_int; cbn [cin vec disk screen];
        rewrite (extract_int_no_number _ _ _ _ Hws Hs Hd Hm Hp); reflexivity).
  erewrite IO_bind_eq by reflexivity. cbn [cin vec disk screen].
  rewrite (proj1 (proj2 (extract_failed (x :: rest) false))). cbv iota.
  erewrite IO_bind_eq by reflexivity. cbn [cin vec disk screen Z.eqb].
  rewrite menu_failed_invalid by discriminate.
  cbn [replicate concat]. rewrite <- !app_assoc. reflexivity.
Qed.

Lemma menu_stuck_on_non_number_witness :
  menu_cin 2 (fun _ => 0) O 6
    (mkProcess (mkIstream (txt " abc") false false) [Alice] no_file [])
  = (Ok false,
     mkProcess (mkIstream (txt "abc") false true) [Alice] no_file
       [MenuShown; InvalidChoice; MenuShown; InvalidChoice]).
Proof.
  exact (menu_stuck_on_non_number 1 (fun _ => 0) O 6 (txt " ") "a"%char (txt "bc")
           [Alice] no_file [] eq_refl eq_refl eq_refl eq_refl eq_refl).
Defined.

(** A session that stops without the choice 6 never ends: when the input
    is over after the last operation, [cin >> choice] fails, [choice]
    keeps the number of that operation, and the loop goes on. *)
Theorem session_without_exit_never_ends cs fuel indet k choice ws l f scr :
  forallb valid_input cs = true -> forallb isspace ws = true ->
  (cs = [] -> choice <> 6) ->
  fst (menu_cin fuel indet k choice
         (mkProcess (mkIstream (ws ++ session (mkWorld l f []) cs) false false) l f scr))
  = Ok false.
Proof.
  revert fuel k choice ws l f scr.
  induction cs as [|c cs IH]; intros fuel k choice ws l f scr Hcs Hws H6;
    (destruct fuel as [|fuel]; [reflexivity |]).
  - cbn [session]. rewrite app_nil_r.
    destruct (menu_turn_failed fuel indet k choice _ [] true l f scr
                (extract_int_at_end choice ws Hws) (H6 eq_refl)) as (p' & Hcin & ->).
    apply menu_failed; [rewrite Hcin; reflexivity | exact (H6 eq_refl)].
  - cbn [forallb] in Hcs. apply andb_true_iff in Hcs as [Hc Hcs]. cbn [session].
    rewrite (menu_turn c _ _ _ _ _ _ _ _ _ Hc Hws), call_eq.
    cbn [snd cin vec disk screen world_of_process].
    set (w' := exec (dispatch c) (mkWorld l f [])).
    rewrite (session_ext cs w' (mkWorld (students w') (students_txt w') []) eq_refl eq_refl).
    apply IH; [assumption | apply pending_space |].
    intros _. destruct c; discriminate.
Qed.

Lemma session_without_exit_never_ends_witness :
  fst (menu_cin 10 (fun _ => 0) O 6
         (mkProcess (mkIstream (txt "2" ++ [LF]) false false) [Alice] no_file []))
  = Ok false.
Proof.
  refine (session_without_exit_never_ends [CmdView] 10 (fun _ => 0) O 6 []
            [Alice] no_file [] eq_refl eq_refl _).
  discriminate.
Defined.




(** A number other than 1 to 6 as choice: the turn prints "Invalid
    Choice!", changes neither the vector nor the file, and the menu goes on
    with the rest of the input. *)
Theorem menu_invalid_number fuel indet k choice ws n rest l f scr :
  forallb isspace ws = true -> int_range n ->
  n <> 1 -> n <> 2 -> n <> 3 -> n <> 4 -> n <> 5 -> n <> 6 ->
  menu_cin (S fuel) indet k choice
    (mkProcess (mkIstream (ws ++ to_dec n ++ LF :: rest) false false) l f scr)
  = menu_cin fuel indet (S k) n
      (mkProcess (mkIstream rest false false) l f (scr ++ [MenuShown; InvalidChoice])).
Proof.
  intros Hws Hn H1 H2 H3 H4 H5 H6.
  rewrite (menu_reads_choice _ _ _ _ _ n _ _ _ _ Hws Hn).
  rewrite (switch_default _ _ _ _ _ _ _ n H1 H2 H3 H4 H5 H6).
  erewrite IO_bind_eq by reflexivity. cbn [cin vec disk screen].
  assert (Hne : (n =? 6) = false) by (apply Z.eqb_neq; assumption).
  rewrite Hne, <- app_assoc. reflexivity.
Qed.

Lemma menu_invalid_number_witness :
  menu_cin 2 (fun _ => 0) O 0
    (mkProcess (mkIstream (txt "9" ++ LF :: txt "6" ++ [LF]) false false) [Alice] no_file [])
  = (Ok true,
     mkProcess (mkIstream [] false false) [Alice] no_file
       [MenuShown; InvalidChoice; MenuShown; Exiting]).
Proof.
  refine (eq_trans
            (menu_invalid_number 1 (fun _ => 0) O 0 [] 9 (txt "6" ++ [LF]) [Alice] no_file []
               eq_refl _ _ _ _ _ _ _) _);
    try discriminate; [vm_compute; split; discriminate | reflexivity].
Defined.
